(** * AI-Code-Assistant: heuristic analyzers and collaboration sessions

    A shallow embedding of the parts of [src/advanced_code_assistant.py]
    (class [CodeAnalyzer] and the session methods of [CodeAssistant]) and of
    [app.py] ([AICodeAssistant.detect_bugs]) that the specification talks
    about, followed by the properties established for them.

    Modelling conventions.
    - A Python [str] is a [string]; every character is read as the Unicode
      code point of the same number (the Latin-1 range 0..255), on which
      [str.lower], [str.strip] and [len] are embedded exactly.
    - A Python [int] is a [Z] or a [nat] (lengths and counters); the one
      [float] of the analyzers, the average complexity of the radon path,
      is an exact rational [Q].
    - A Python [dict] literal with string keys is a [PyDict]: the list of its
      items in insertion order.
    - [datetime.now()] is a reading of the clock handed to the function.
    - The third-party tools (ast, radon, bandit, pylint) are a record of
      functions; [None] stands for any exception they raise.
    - Session objects are mutable and shared by reference: the session
      dictionary maps identifiers to addresses of a heap of session
      records. *)

From Stdlib Require Import ZArith QArith Qminmax Ascii String List Lia.
From Stdlib Require Import DecimalString Sorted Lqa.
From stdpp Require Import gmap strings list.

Local Open Scope string_scope.
Local Open Scope list_scope.
Local Open Scope nat_scope.

(** ** Python string primitives *)

Module Str.

(** [str.isspace] on one character: the white space of the Latin-1 range. *)
Definition isspace (c : ascii) : bool :=
  let n := N_of_ascii c in
  (((9 <=? n) && (n <=? 13)) || ((28 <=? n) && (n <=? 32))
   || (n =? 133) || (n =? 160))%N.

(** [str.lower] on one character: A-Z and the upper-case letters of the
    Latin-1 supplement (all of 0xC0-0xDE but the multiplication sign). *)
Definition lower_char (c : ascii) : ascii :=
  let n := N_of_ascii c in
  if (((65 <=? n) && (n <=? 90))
      || ((192 <=? n) && (n <=? 222) && negb (n =? 215)))%N
  then ascii_of_N (n + 32) else c.

Fixpoint lower (s : string) : string :=
  match s with
  | EmptyString => EmptyString
  | String c s' => String (lower_char c) (lower s')
  end.

Fixpoint lstrip (s : string) : string :=
  match s with
  | EmptyString => EmptyString
  | String c s' => if isspace c then lstrip s' else s
  end.

Fixpoint rstrip (s : string) : string :=
  match s with
  | EmptyString => EmptyString
  | String c s' =>
      match rstrip s' with
      | EmptyString => if isspace c then EmptyString else String c EmptyString
      | r => String c r
      end
  end.

Definition strip (s : string) : string := rstrip (lstrip s).

(** Truth value of a string: non-empty. *)
Definition truthy (s : string) : bool :=
  match s with EmptyString => false | _ => true end.

(** [s.split(sep)] for a one-character separator: never the empty list. *)
Fixpoint split (sep : ascii) (s : string) : list string :=
  match s with
  | EmptyString => [EmptyString]
  | String c s' =>
      if Ascii.eqb c sep then EmptyString :: split sep s'
      else match split sep s' with
           | [] => [String c EmptyString]
           | w :: ws => String c w :: ws
           end
  end.

(** [sub in s]: [sub] occurs in [s] as a contiguous substring. *)
Fixpoint contains (sub s : string) : bool :=
  String.prefix sub s
  || match s with
     | EmptyString => false
     | String _ s' => contains sub s'
     end.

(** [s.replace(old, new)] for one-character [old] and [new]. *)
Fixpoint replace (old new : ascii) (s : string) : string :=
  match s with
  | EmptyString => EmptyString
  | String c s' =>
      String (if Ascii.eqb c old then new else c) (replace old new s')
  end.

(** [sep.join(parts)] *)
Definition join (sep : string) (parts : list string) : string :=
  String.concat sep parts.

(** [str(n)] of an integer, as f-strings format it. *)
Definition of_nat (n : nat) : string := NilZero.string_of_uint (Nat.to_uint n).
Definition of_Z (z : Z) : string := NilZero.string_of_int (Z.to_int z).

Definition newline : ascii := ascii_of_nat 10.

(** Number of (possibly overlapping) positions of [s] at which [sub]
    starts; used to read "number of occurrences" literally. *)
Fixpoint occurrences (sub s : string) : nat :=
  (if String.prefix sub s then 1 else 0)
  + match s with
    | EmptyString => 0
    | String _ s' => occurrences sub s'
    end.

(** Some character of [s] is not white space. *)
Definition has_ink (s : string) : bool :=
  existsb (fun c => negb (isspace c)) (list_ascii_of_string s).

End Str.

(** ** Shared data model *)

Inductive LanguageType :=
| PYTHON | JAVASCRIPT | TYPESCRIPT | JAVA | CPP | CSHARP | GO | RUST | PHP
| RUBY | SWIFT | KOTLIN | SCALA | R | SQL | HTML | CSS.

#[global] Instance LanguageType_eq_dec : EqDecision LanguageType.
Proof. solve_decision. Defined.

Inductive AnalysisType :=
| COMPLEXITY | QUALITY | SECURITY | PERFORMANCE | STYLE | DOCUMENTATION.

(** A clock reading. *)
Definition datetime := Z.
Bind Scope Z_scope with datetime.

(** Values stored in the issue and metric dictionaries. *)
Inductive PyVal :=
| PyStr (s : string)
| PyInt (z : Z)
| PyNum (q : Q).

Definition PyDict := list (string * PyVal).

(** [d[key]] when present. *)
Fixpoint dict_get (key : string) (d : PyDict) : option PyVal :=
  match d with
  | [] => None
  | (k, v) :: d' => if String.eqb k key then Some v else dict_get key d'
  end.

Definition pyint (n : nat) : PyVal := PyInt (Z.of_nat n).

(** [max(0, n)] on integers, then read as a score. *)
Definition clamp_score (z : Z) : Q := inject_Z (Z.max 0 z).

(** ** [CodeAnalyzer]: the heuristic analyzers *)

Module Analyzer.

Record CodeAnalysisResult := {
  file_path : string;
  language : LanguageType;
  analysis_type : AnalysisType;
  score : Q;
  issues : list PyDict;
  suggestions : list string;
  metrics : PyDict;
  timestamp : datetime }.

(** [enumerate(l, start)] *)
Definition enumerate {A} (start : nat) (l : list A) : list (nat * A) :=
  zip (seq start (length l)) l.

(** *** Fallback heuristics ([_basic_*_analysis]) *)

Definition complexity_indicators : list string :=
  ["if"; "else"; "for"; "while"; "switch"; "case"; "try"; "catch"].

(** [[line for line in code.split('\n') if line.strip()]] *)
Definition non_empty_lines (code : string) : list string :=
  List.filter (fun line => Str.truthy (Str.strip line))
              (Str.split Str.newline code).

(** The indicators found in one line: [indicator in line.lower()]. *)
Definition indicators_in (line : string) : list string :=
  List.filter (fun indicator => Str.contains indicator (Str.lower line))
              complexity_indicators.

(** [sum(1 for line in non_empty_lines for indicator in
    complexity_indicators if indicator in line.lower())] *)
Definition complexity_count (code : string) : nat :=
  length (flat_map indicators_in (non_empty_lines code)).

Definition _basic_complexity_analysis
    (code : string) (lang : LanguageType) (now : datetime)
  : CodeAnalysisResult :=
  let complexity_count := complexity_count code in
  {| file_path := "<string>";
     language := lang;
     analysis_type := COMPLEXITY;
     score := clamp_score (100 - Z.of_nat complexity_count * 2);
     issues := [];
     suggestions :=
       if (10 <? complexity_count)%nat
       then ["Consider simplifying complex logic (found "
               +:+ Str.of_nat complexity_count +:+ " complexity indicators)"]
       else [];
     metrics := [("complexity_indicators", pyint complexity_count);
                 ("lines_of_code", pyint (length (non_empty_lines code)))];
     timestamp := now |}.

(** The pattern table, in the insertion order of the dictionary. *)
Definition security_patterns : list (string * list string) :=
  [("sql_injection", ["SELECT"; "INSERT"; "UPDATE"; "DELETE"]);
   ("xss", ["innerHTML"; "document.write"; "eval"]);
   ("hardcoded_secrets", ["password"; "api_key"; "secret"; "token"]);
   ("unsafe_functions", ["exec"; "system"; "shell_exec"])].

(** [pattern.lower() in code.lower()] *)
Definition pattern_found (code pattern : string) : bool :=
  Str.contains (Str.lower pattern) (Str.lower code).

(** The (issue type, pattern) pairs the two nested loops stop at. *)
Definition security_matches (code : string) : list (string * string) :=
  flat_map (fun entry : string * list string =>
              map (pair (fst entry))
                  (List.filter (pattern_found code) (snd entry)))
           security_patterns.

Definition security_issue (m : string * string) : PyDict :=
  [("type", PyStr (fst m)); ("pattern", PyStr (snd m));
   ("severity", PyStr "medium")].

Definition security_suggestion (m : string * string) : string :=
  "Potential " +:+ Str.replace "_" " " (fst m) +:+ " risk with '"
    +:+ snd m +:+ "'".

Definition _basic_security_analysis
    (code : string) (lang : LanguageType) (now : datetime)
  : CodeAnalysisResult :=
  let security_issues := map security_issue (security_matches code) in
  {| file_path := "<string>";
     language := lang;
     analysis_type := SECURITY;
     score := clamp_score (100 - Z.of_nat (length security_issues) * 10);
     issues := security_issues;
     suggestions := map security_suggestion (security_matches code);
     metrics := [("potential_issues", pyint (length security_issues))];
     timestamp := now |}.

(** The numbered lines with [len(line) > 120]. *)
Definition long_lines (code : string) : list (nat * string) :=
  List.filter (fun il : nat * string => (120 <? String.length (snd il))%nat)
              (enumerate 1 (Str.split Str.newline code)).

Definition style_issue (il : nat * string) : PyDict :=
  [("type", PyStr "line_too_long"); ("line", pyint (fst il));
   ("length", pyint (String.length (snd il))); ("severity", PyStr "low")].

Definition style_suggestion (il : nat * string) : string :=
  "Line " +:+ Str.of_nat (fst il) +:+ " is too long ("
    +:+ Str.of_nat (String.length (snd il)) +:+ " characters)".

(** The second test of the loop body (indentation) only reaches [pass]. *)
Definition _basic_style_analysis
    (code : string) (lang : LanguageType) (now : datetime)
  : CodeAnalysisResult :=
  let issues := map style_issue (long_lines code) in
  {| file_path := "<string>";
     language := lang;
     analysis_type := STYLE;
     score := clamp_score (100 - Z.of_nat (length issues) * 5);
     issues := issues;
     suggestions := map style_suggestion (long_lines code);
     metrics := [("style_issues", pyint (length issues))];
     timestamp := now |}.

(** *** Readings used to state the properties *)

(** The pattern table as one list of (issue type, pattern) pairs. *)
Definition pattern_table : list (string * string) :=
  [("sql_injection", "SELECT"); ("sql_injection", "INSERT");
   ("sql_injection", "UPDATE"); ("sql_injection", "DELETE");
   ("xss", "innerHTML"); ("xss", "document.write"); ("xss", "eval");
   ("hardcoded_secrets", "password"); ("hardcoded_secrets", "api_key");
   ("hardcoded_secrets", "secret"); ("hardcoded_secrets", "token");
   ("unsafe_functions", "exec"); ("unsafe_functions", "system");
   ("unsafe_functions", "shell_exec")].

(** "The number of occurrences of the keywords across all non-blank
    lines", read literally: every occurrence of every keyword in every
    non-blank line counts (letter case ignored, as in the code). *)
Definition keyword_occurrences (code : string) : nat :=
  list_sum
    (map (fun line =>
            list_sum (map (fun keyword =>
                             Str.occurrences keyword (Str.lower line))
                          complexity_indicators))
         (non_empty_lines code)).

(** The (non-blank line, keyword) pairs, lines first. *)
Definition line_keyword_pairs (code : string) : list (string * string) :=
  list_prod (non_empty_lines code) complexity_indicators.

(** *** The tool paths ([analyze_*]) for Python code *)

(** A radon complexity block: [lineno], [name], [complexity] (radon
    counts decision points, so the complexity is a natural number). *)
Record Block := {
  lineno : nat;
  name : string;
  complexity : nat }.

(** The raw metrics of [radon.metrics.analyze]. *)
Record RawMetrics := {
  loc : nat; lloc : nat; sloc : nat;
  comments : nat; multi : nat; blank : nat }.

(** A bandit finding: [lineno], [test_id], [severity], [confidence],
    [text]. *)
Record BanditIssue := {
  b_lineno : nat;
  test_id : string;
  severity : string;
  confidence : string;
  text : string }.

(** The third-party tools; [None] is any exception raised while the tool
    (or the temporary file around it) is used. *)
Record Tools := {
  ast_parse : string -> option unit;
  radon_blocks : string -> option (list Block);
  radon_analyze : string -> option RawMetrics;
  bandit_run : string -> option (list BanditIssue);
  pylint_run : string -> option string }.

Definition complexity_issue (block : Block) : PyDict :=
  [("type", PyStr "high_complexity"); ("line", pyint (lineno block));
   ("function", PyStr (name block));
   ("complexity", pyint (complexity block));
   ("severity",
    PyStr (if (15 <? complexity block)%nat then "high" else "medium"))].

Definition complexity_suggestion (block : Block) : string :=
  "Consider refactoring " +:+ name block +:+ " (complexity: "
    +:+ Str.of_nat (complexity block) +:+ ")".

(** [total_complexity / len(complexity_blocks) if complexity_blocks else 0] *)
Definition avg_complexity (blocks : list Block) : Q :=
  match blocks with
  | [] => 0
  | _ => inject_Z (Z.of_nat (list_sum (map complexity blocks)))
         / inject_Z (Z.of_nat (length blocks))
  end.

Definition analyze_complexity
    (tools : Tools) (code : string) (lang : LanguageType) (now : datetime)
  : CodeAnalysisResult :=
  if decide (lang <> PYTHON) then _basic_complexity_analysis code lang now
  else
    match ast_parse tools code, radon_blocks tools code,
          radon_analyze tools code with
    | Some _, Some complexity_blocks, Some raw_metrics =>
        let flagged :=
          List.filter (fun block => (10 <? complexity block)%nat)
                      complexity_blocks in
        let total_complexity := list_sum (map complexity complexity_blocks) in
        {| file_path := "<string>";
           language := lang;
           analysis_type := COMPLEXITY;
           score := Qmax 0 (100 - avg_complexity complexity_blocks * 5);
           issues := map complexity_issue flagged;
           suggestions := map complexity_suggestion flagged;
           metrics :=
             [("total_complexity", pyint total_complexity);
              ("average_complexity", PyNum (avg_complexity complexity_blocks));
              ("functions_count", pyint (length complexity_blocks));
              ("lines_of_code", pyint (loc raw_metrics));
              ("logical_lines", pyint (lloc raw_metrics));
              ("source_lines", pyint (sloc raw_metrics));
              ("comments", pyint (comments raw_metrics));
              ("multi_line_strings", pyint (multi raw_metrics));
              ("blank_lines", pyint (blank raw_metrics))];
           timestamp := now |}
    | _, _, _ => _basic_complexity_analysis code lang now
    end.

Definition bandit_issue (issue : BanditIssue) : PyDict :=
  [("type", PyStr "security_issue"); ("line", pyint (b_lineno issue));
   ("test_id", PyStr (test_id issue)); ("severity", PyStr (severity issue));
   ("confidence", PyStr (confidence issue)); ("text", PyStr (text issue))].

Definition bandit_suggestion (issue : BanditIssue) : string :=
  "Security issue at line " +:+ Str.of_nat (b_lineno issue) +:+ ": "
    +:+ text issue.

(** [len([i for i in issues if i['severity'] == level])] *)
Definition severity_count (level : string) (found : list BanditIssue) : nat :=
  length (List.filter (fun i => String.eqb (severity i) level) found).

Definition analyze_security
    (tools : Tools) (code : string) (lang : LanguageType) (now : datetime)
  : CodeAnalysisResult :=
  if decide (lang <> PYTHON) then _basic_security_analysis code lang now
  else
    match bandit_run tools code with
    | Some found =>
        let high_severity := severity_count "HIGH" found in
        let medium_severity := severity_count "MEDIUM" found in
        let low_severity := severity_count "LOW" found in
        {| file_path := "<string>";
           language := lang;
           analysis_type := SECURITY;
           score :=
             clamp_score
               (100 - (Z.of_nat high_severity * 20
                       + Z.of_nat medium_severity * 10
                       + Z.of_nat low_severity * 5));
           issues := map bandit_issue found;
           suggestions := map bandit_suggestion found;
           metrics :=
             [("total_issues", pyint (length found));
              ("high_severity", pyint high_severity);
              ("medium_severity", pyint medium_severity);
              ("low_severity", pyint low_severity);
              ("lines_analyzed",
               pyint (length (Str.split Str.newline code)))];
           timestamp := now |}
    | None => _basic_security_analysis code lang now
    end.

(** The test on one line of the pylint report. *)
Definition pylint_line_reported (line : string) : bool :=
  Str.contains ":" line
  && (Str.contains "error" (Str.lower line)
      || Str.contains "warning" (Str.lower line)
      || Str.contains "convention" (Str.lower line)).

(** [(line_num, message)] of a reported line with at least four parts. *)
Definition pylint_parse_line (line : string) : option (string * string) :=
  if pylint_line_reported line then
    match Str.split ":" line with
    | _ :: p1 :: _ :: p3 :: rest =>
        Some (Str.strip p1, Str.strip (Str.join ":" (p3 :: rest)))
    | _ => None
    end
  else None.

Definition pylint_issue (lm : string * string) : PyDict :=
  [("type", PyStr "style_issue"); ("line", PyStr (fst lm));
   ("message", PyStr (snd lm)); ("severity", PyStr "medium")].

Definition pylint_suggestion (lm : string * string) : string :=
  "Line " +:+ fst lm +:+ ": " +:+ snd lm.

Definition analyze_style
    (tools : Tools) (code : string) (lang : LanguageType) (now : datetime)
  : CodeAnalysisResult :=
  if decide (lang <> PYTHON) then _basic_style_analysis code lang now
  else
    match pylint_run tools code with
    | Some pylint_result =>
        let found :=
          omap pylint_parse_line (Str.split Str.newline pylint_result) in
        let score := clamp_score (100 - Z.of_nat (length found) * 2) in
        {| file_path := "<string>";
           language := lang;
           analysis_type := STYLE;
           score := score;
           issues := map pylint_issue found;
           suggestions := map pylint_suggestion found;
           metrics :=
             [("total_issues", pyint (length found));
              ("lines_analyzed",
               pyint (length (Str.split Str.newline code)));
              ("pylint_score", PyNum score)];
           timestamp := now |}
    | None => _basic_style_analysis code lang now
    end.

End Analyzer.

(** ** [CodeAssistant]: the collaboration sessions *)

Module Sessions.

Record CollaborationSession := {
  session_id : string;
  participants : list string;
  code_content : string;
  language : LanguageType;
  created_at : datetime;
  last_modified : datetime;
  is_active : bool }.

(** The address of a session object. *)
Abbreviation addr := positive.

(** The part of a [CodeAssistant] the session methods touch: the
    dictionary [self.collaboration_sessions], whose values are references,
    and the session objects these references (and those handed out to
    callers) point to. *)
Record CodeAssistant := {
  collaboration_sessions : gmap string addr;
  heap : gmap addr CollaborationSession }.

(** [self.collaboration_sessions = {}] *)
Definition init : CodeAssistant :=
  {| collaboration_sessions := ∅; heap := ∅ |}.

(** The session an identifier is bound to, read through its reference. *)
Definition session_of (st : CodeAssistant) (sid : string)
  : option CollaborationSession :=
  collaboration_sessions st !! sid ≫= fun l => heap st !! l.

(** In-place assignments to fields of a session object. *)
Definition set_code (new_code : string) (now : datetime)
    (session : CollaborationSession) : CollaborationSession :=
  {| session_id := session_id session;
     participants := participants session;
     code_content := new_code;
     language := language session;
     created_at := created_at session;
     last_modified := now;
     is_active := is_active session |}.

Definition append_participant (user_id : string)
    (session : CollaborationSession) : CollaborationSession :=
  {| session_id := session_id session;
     participants := participants session ++ [user_id];
     code_content := code_content session;
     language := language session;
     created_at := created_at session;
     last_modified := last_modified session;
     is_active := is_active session |}.

(** [now1] and [now2] are the two clock readings of the constructor call.
    The new object gets an address no live object has; the result is the
    reference to it. *)
Definition create_collaboration_session
    (st : CodeAssistant) (sid initial_code : string) (lang : LanguageType)
    (now1 now2 : datetime) : CodeAssistant * addr :=
  let session :=
    {| session_id := sid;
       participants := [];
       code_content := initial_code;
       language := lang;
       created_at := now1;
       last_modified := now2;
       is_active := true |} in
  let l := fresh (dom (heap st)) in
  ({| collaboration_sessions := <[sid := l]> (collaboration_sessions st);
      heap := <[l := session]> (heap st) |}, l).

(** A reference in the dictionary always points to a live object (see
    [wf]); the branch for a dangling one only makes the function total. *)
Definition join_collaboration_session
    (st : CodeAssistant) (sid user_id : string)
  : CodeAssistant * option addr :=
  match collaboration_sessions st !! sid with
  | Some l =>
      match heap st !! l with
      | Some session =>
          if bool_decide (user_id ∈ participants session) then (st, Some l)
          else ({| collaboration_sessions := collaboration_sessions st;
                   heap := <[l := append_participant user_id session]>
                             (heap st) |}, Some l)
      | None => (st, None)
      end
  | None => (st, None)
  end.

Definition update_collaboration_code
    (st : CodeAssistant) (sid new_code user_id : string) (now : datetime)
  : CodeAssistant * bool :=
  match collaboration_sessions st !! sid with
  | Some l =>
      match heap st !! l with
      | Some session =>
          ({| collaboration_sessions := collaboration_sessions st;
              heap := <[l := set_code new_code now session]> (heap st) |},
           true)
      | None => (st, false)
      end
  | None => (st, false)
  end.

(** Well-formed stores: no dangling reference, and no session object
    bound to two identifiers. *)
Definition wf (st : CodeAssistant) : Prop :=
  (∀ sid l, collaboration_sessions st !! sid = Some l →
            is_Some (heap st !! l))
  ∧ (∀ sid1 sid2 l, collaboration_sessions st !! sid1 = Some l →
                    collaboration_sessions st !! sid2 = Some l →
                    sid1 = sid2).

(** Every session object is active. *)
Definition all_active (st : CodeAssistant) : Prop :=
  ∀ l s, heap st !! l = Some s → is_active s = true.

(** One call of a session method. *)
Inductive step : CodeAssistant → CodeAssistant → Prop :=
| step_create st sid code lang now1 now2 :
    step st (create_collaboration_session st sid code lang now1 now2).1
| step_join st sid user_id :
    step st (join_collaboration_session st sid user_id).1
| step_update st sid code user_id now :
    step st (update_collaboration_code st sid code user_id now).1.

(** The stores the methods build from the empty dictionary. *)
Definition reachable (st : CodeAssistant) : Prop := rtc step init st.

End Sessions.

(** ** [AICodeAssistant.detect_bugs] of [app.py] *)

Module App.

Inductive TaskType :=
| CODE_GENERATION | CODE_COMPLETION | BUG_DETECTION | DOCUMENTATION
| CODE_REVIEW | OPTIMIZATION.

Record CodeRequest := {
  task_type : TaskType;
  language : string;
  prompt : string;
  code : option string;
  context : option string }.

Record CodeResponse := {
  r_task_type : TaskType;
  r_language : string;
  result : string;
  suggestions : list string;
  confidence : Q;
  timestamp : datetime }.

(** What a call produces: the returned value or the exception raised. *)
Inductive outcome (A : Type) :=
| Returns (a : A)
| ValueError (msg : string).
Arguments Returns {A} a.
Arguments ValueError {A} msg.

Definition nl : string := String Str.newline EmptyString.

(** The checks of the [python] branch, in program order. *)
Definition python_bugs (code : string) : list string :=
  (if Str.contains "except:" code
   then ["Bare except clause detected - should catch specific exceptions"]
   else [])
  ++ (if Str.contains "eval(" code
      then ["Use of eval() detected - potential security risk"] else [])
  ++ (if Str.contains "input(" code && Str.contains "int(" code
      then ["Potential ValueError if non-numeric input provided"] else []).

(** The checks of the [javascript] branch. *)
Definition javascript_bugs (code : string) : list string :=
  (if Str.contains "==" code && negb (Str.contains "===" code)
   then ["Use === instead of == for strict equality"] else [])
  ++ (if Str.contains "var " code
      then ["Consider using 'let' or 'const' instead of 'var'"] else []).

(** The list [bugs_found] when the scan is over. *)
Definition bugs_found (lang code : string) : list string :=
  (if String.eqb (Str.lower lang) "python" then python_bugs code else [])
  ++ (if String.eqb (Str.lower lang) "javascript"
      then javascript_bugs code else []).

Definition detect_bugs (request : CodeRequest) (now : datetime)
  : outcome CodeResponse :=
  match code request with
  | None | Some EmptyString =>
      ValueError "Code is required for bug detection"
  | Some src =>
      let bugs := bugs_found (language request) src in
      let '(result, suggestions) :=
        match bugs with
        | _ :: _ =>
            ("Potential issues found:" +:+ nl
               +:+ Str.join nl (map (fun bug => "- " +:+ bug) bugs),
             ["Fix the identified issues";
              "Add proper error handling";
              "Consider using a linter for additional checks"])
        | [] =>
            ("No obvious issues detected. Code looks good!",
             ["Consider adding unit tests";
              "Review for edge cases";
              "Use a comprehensive linter for thorough analysis"])
        end in
      Returns {| r_task_type := task_type request;
                 r_language := language request;
                 result := result;
                 suggestions := suggestions;
                 confidence := 7 # 10;
                 timestamp := now |}
  end.

End App.

(** ** Example inputs *)

Module Examples.
Import Sessions.

(** Tools that all fail. *)
Definition no_tools : Analyzer.Tools :=
  {| Analyzer.ast_parse := fun _ => None;
     Analyzer.radon_blocks := fun _ => None;
     Analyzer.radon_analyze := fun _ => None;
     Analyzer.bandit_run := fun _ => None;
     Analyzer.pylint_run := fun _ => None |}.

(** One line with eleven conditionals. *)
Definition eleven_ifs : string :=
  "if(a) if(b) if(c) if(d) if(e) if(g) if(h) if(j) if(k) if(l) if(m) x();".

(** Twelve lines, each with one loop keyword. *)
Definition twelve_loops : string :=
  Str.join App.nl (repeat "while (x) { y(); }" 12).

(** A line of 121 characters between two short lines. *)
Definition one_long_line : string :=
  "int a;" +:+ App.nl
    +:+ Str.join EmptyString (repeat "x" 121) +:+ App.nl +:+ "int b;".

(** Code that names a credential and calls [eval]. *)
Definition leaky : string := "var Password = EVAL(input);".

(** The code of the bare-except scenario. *)
Definition bare_except : string :=
  "try:" +:+ App.nl +:+ "    x = int(input())" +:+ App.nl
    +:+ "except:" +:+ App.nl +:+ "    pass".

(** A store holding one session whose active flag has been cleared through
    a reference to the session object. *)
Definition inactive_session : CollaborationSession :=
  {| session_id := "s1";
     participants := ["p1"];
     code_content := "a=1";
     language := PYTHON;
     created_at := 0;
     last_modified := 0;
     is_active := false |}.

Definition inactive_store : CodeAssistant :=
  {| collaboration_sessions := {["s1" := 1%positive]};
     heap := {[1%positive := inactive_session]} |}.

(** Session "s1" created with content "a=1", then joined by "p1". *)
Definition live_store : CodeAssistant :=
  (join_collaboration_session
     (create_collaboration_session init "s1" "a=1" PYTHON 1 2).1
     "s1" "p1").1.

(** A store in which two identifiers are bound to one session object, as
    after [d["s2"] = d["s1"]] on the dictionary itself. *)
Definition aliased_store : CodeAssistant :=
  {| collaboration_sessions := <["s2" := 1%positive]> {["s1" := 1%positive]};
     heap := {[1%positive := inactive_session]} |}.

(** [live_store] with a second session "s2". *)
Definition two_stores : CodeAssistant :=
  (create_collaboration_session live_store "s2" "b=1" JAVA 3 4).1.

End Examples.

(** ** Language tags and file extensions *)

Module Languages.

(** [lang.value] *)
Definition language_value (lang : LanguageType) : string :=
  match lang with
  | PYTHON => "python" | JAVASCRIPT => "javascript"
  | TYPESCRIPT => "typescript" | JAVA => "java" | CPP => "cpp"
  | CSHARP => "csharp" | GO => "go" | RUST => "rust" | PHP => "php"
  | RUBY => "ruby" | SWIFT => "swift" | KOTLIN => "kotlin"
  | SCALA => "scala" | R => "r" | SQL => "sql" | HTML => "html"
  | CSS => "css"
  end.

(** The members of the enumeration, in definition order. *)
Definition all_languages : list LanguageType :=
  [PYTHON; JAVASCRIPT; TYPESCRIPT; JAVA; CPP; CSHARP; GO; RUST; PHP; RUBY;
   SWIFT; KOTLIN; SCALA; R; SQL; HTML; CSS].

(** [LanguageType(value)]: the member with that value; [None] stands for
    the [ValueError] raised when there is none. *)
Definition LanguageType_of (value : string) : option LanguageType :=
  List.find (fun lang => String.eqb (language_value lang) value)
            all_languages.

(** [self.supported_languages] of [CodeAnalyzer], in insertion order. *)
Definition supported_languages : list (LanguageType * list string) :=
  [(PYTHON, [".py"]);
   (JAVASCRIPT, [".js"; ".jsx"]);
   (TYPESCRIPT, [".ts"; ".tsx"]);
   (JAVA, [".java"]);
   (CPP, [".cpp"; ".cc"; ".cxx"; ".c++"]);
   (CSHARP, [".cs"]);
   (GO, [".go"]);
   (RUST, [".rs"]);
   (PHP, [".php"]);
   (RUBY, [".rb"]);
   (HTML, [".html"; ".htm"]);
   (CSS, [".css"]);
   (SQL, [".sql"])].

(** [file_ext in extensions] *)
Definition ext_in (file_ext : string) (extensions : list string) : bool :=
  existsb (String.eqb file_ext) extensions.

(** [detect_language]; [suffix] is [Path(file_path).suffix] of pathlib. *)
Definition detect_language (suffix : string -> string) (file_path : string)
  : option LanguageType :=
  let file_ext := Str.lower (suffix file_path) in
  match List.find (fun entry : LanguageType * list string =>
                     ext_in file_ext (snd entry))
                  supported_languages with
  | Some entry => Some (fst entry)
  | None => None
  end.

End Languages.

(** ** An invariant of the stored sessions *)

Module Invariants.
Import Sessions.

(** The sessions bound in the dictionary carry their own identifier, are
    active and list no participant twice. *)
Definition consistent (st : CodeAssistant) : Prop :=
  ∀ sid s, session_of st sid = Some s →
           session_id s = sid ∧ is_active s = true ∧ NoDup (participants s).

End Invariants.

(** ** The remaining session code: status count and socket handlers *)

Module Handlers.
Import Sessions.

(** ['active_sessions': len(ai_assistant.collaboration_sessions)] of the
    status endpoint. *)
Definition active_sessions (st : CodeAssistant) : nat :=
  size (collaboration_sessions st).

(** The exceptions the handlers can end in. *)
Inductive exn :=
| KeyError (key : string)
| ValueError
| AttributeError.

(** Values of an event payload. *)
Inductive PayloadVal :=
| PvStr (s : string)
| PvList (l : list string).

(** What a handler asks of the socket layer: [join_room(room)], or
    [emit(event, payload, room=..., include_self=...)]; without a room the
    event goes to the calling client. *)
Inductive action :=
| JoinRoom (room : string)
| Emit (event : string) (payload : list (string * PayloadVal))
       (room : option string) (include_self : bool).

(** The outcome of one handler call: the store, the requests made to the
    socket layer in order, and the exception that ended the call, if any. *)
Record Run := {
  store : CodeAssistant;
  actions : list action;
  raised : option exn }.

Definition raise (st : CodeAssistant) (e : exn) : Run :=
  {| store := st; actions := []; raised := Some e |}.

(** The event data is a dictionary of strings; so is the Flask session. *)
Definition handle_create_session
    (st : CodeAssistant) (data : gmap string string) (now1 now2 : datetime)
  : Run :=
  match data !! "session_id" with
  | None => raise st (KeyError "session_id")
  | Some session_id =>
      match data !! "code" with
      | None => raise st (KeyError "code")
      | Some code =>
          match data !! "language" with
          | None => raise st (KeyError "language")
          | Some value =>
              match Languages.LanguageType_of value with
              | None => raise st ValueError
              | Some lang =>
                  {| store :=
                       (create_collaboration_session
                          st session_id code lang now1 now2).1;
                     actions :=
                       [JoinRoom session_id;
                        Emit "session_created"
                             [("session_id", PvStr session_id);
                              ("status", PvStr "success")]
                             None true];
                     raised := None |}
              end
          end
      end
  end.

(** The default of [session.get('user_id', ...)] is computed before the
    call: [collaboration_sessions.get(session_id, {})] is the empty
    dictionary for an unbound identifier, and otherwise the session object,
    which has no [get]. *)
Definition default_user_id (st : CodeAssistant) (session_id : string)
  : option string :=
  match collaboration_sessions st !! session_id with
  | Some _ => None
  | None => Some ("user_" +:+ Str.of_nat (length (@nil string)))
  end.

Definition handle_join_session
    (st : CodeAssistant) (flask_session data : gmap string string) : Run :=
  match data !! "session_id" with
  | None => raise st (KeyError "session_id")
  | Some session_id =>
      match default_user_id st session_id with
      | None => raise st AttributeError
      | Some fallback =>
          let user_id := default fallback (flask_session !! "user_id") in
          let joined := join_collaboration_session st session_id user_id in
          match joined.2 ≫= fun l => heap joined.1 !! l with
          | Some session_obj =>
              {| store := joined.1;
                 actions :=
                   [JoinRoom session_id;
                    Emit "session_joined"
                         [("session_id", PvStr session_id);
                          ("code", PvStr (code_content session_obj));
                          ("language",
                           PvStr (Languages.language_value
                                    (language session_obj)));
                          ("status", PvStr "success")]
                         None true;
                    Emit "user_joined"
                         [("session_id", PvStr session_id);
                          ("user_id", PvStr user_id);
                          ("users", PvList (participants session_obj))]
                         (Some session_id) true];
                 raised := None |}
          | None =>
              {| store := joined.1;
                 actions :=
                   [Emit "session_error"
                         [("error", PvStr "Session not found")] None true];
                 raised := None |}
          end
      end
  end.

Definition handle_code_change
    (st : CodeAssistant) (flask_session data : gmap string string)
    (now : datetime) : Run :=
  match data !! "session_id" with
  | None => raise st (KeyError "session_id")
  | Some session_id =>
      match data !! "code" with
      | None => raise st (KeyError "code")
      | Some new_code =>
          let user_id := default "anonymous" (flask_session !! "user_id") in
          let updated :=
            update_collaboration_code st session_id new_code user_id now in
          {| store := updated.1;
             actions :=
               if updated.2
               then [Emit "code_updated"
                          [("session_id", PvStr session_id);
                           ("code", PvStr new_code);
                           ("user_id", PvStr user_id)]
                          (Some session_id) false]
               else [];
             raised := None |}
      end
  end.

End Handlers.

(** ** [AICodeAssistant.complete_code] of [app.py] *)

Module AppDemo.
Import App.

(** [f"{request.code}"]: the text of an optional string. *)
Definition str_of_code (code : option string) : string :=
  match code with
  | Some src => src
  | None => "None"
  end.

Definition _generate_demo_completion (request : CodeRequest) : string :=
  str_of_code (code request) +:+ nl +:+ nl
    +:+ "// Code completion demo" +:+ nl
    +:+ "// Configure OpenAI API for intelligent code completion".

(** [openai] stands for the chat completion requested with the prompt built
    from the request; [None] is any exception on the way. *)
Definition complete_code
    (ai_enabled : bool) (openai : CodeRequest -> option string)
    (request : CodeRequest) (now : datetime) : CodeResponse :=
  let demo :=
    (_generate_demo_completion request,
     ["This is a demo response. Configure OpenAI API for full functionality."],
     5 # 10) in
  let '(result, suggestions, confidence) :=
    if ai_enabled && Str.truthy (default EmptyString (code request)) then
      match openai request with
      | Some content =>
          (content,
           ["Review the completed code for correctness";
            "Test the functionality thoroughly";
            "Consider refactoring for better readability"],
           85 # 100)
      | None => demo
      end
    else demo in
  {| r_task_type := task_type request;
     r_language := language request;
     result := result;
     suggestions := suggestions;
     confidence := confidence;
     timestamp := now |}.

End AppDemo.

(** ** Tool results for the bare-except scenario *)

Module ToolExamples.



End ToolExamples.

(** ** Properties of the session methods *)

Module SessionFacts.
Import Sessions.

Lemma fresh_heap_None (st : CodeAssistant) :
  heap st !! fresh (dom (heap st)) = None.
Proof. apply not_elem_of_dom, is_fresh. Qed.

Lemma session_of_Some st sid s :
  session_of st sid = Some s ↔
  ∃ l, collaboration_sessions st !! sid = Some l ∧ heap st !! l = Some s.
Proof.
  unfold session_of. destruct (collaboration_sessions st !! sid) as [l|];
    simpl; split.
  - eauto.
  - by intros (l' & [= <-] & Hl).
  - done.
  - by intros (l' & [=] & _).
Qed.

(** *** The invariant of the store *)

Lemma wf_init : wf init.
Proof. split; intros *; simpl; rewrite lookup_empty; naive_solver. Qed.

Lemma wf_create st sid code lang now1 now2 :
  wf st → wf (create_collaboration_session st sid code lang now1 now2).1.
Proof.
  intros [Hlive Hinj]. pose proof (fresh_heap_None st) as Hfresh.
  split; simpl.
  - intros sid' l. rewrite lookup_insert. case_decide as Hs.
    + intros [= <-]. rewrite lookup_insert_eq. eauto.
    + intros Hl. rewrite lookup_insert_ne; [by eapply Hlive|].
      intros <-. apply Hlive in Hl. rewrite Hfresh in Hl. by destruct Hl.
  - intros sid1 sid2 l. rewrite !lookup_insert.
    repeat case_decide; subst; try done.
    + intros [= <-] Hl. apply Hlive in Hl. rewrite Hfresh in Hl.
      by destruct Hl.
    + intros Hl [= <-]. apply Hlive in Hl. rewrite Hfresh in Hl.
      by destruct Hl.
    + apply Hinj.
Qed.

Lemma wf_heap_insert st l s s' :
  wf st → heap st !! l = Some s →
  wf {| collaboration_sessions := collaboration_sessions st;
        heap := <[l := s']> (heap st) |}.
Proof.
  intros [Hlive Hinj] Hl. split; simpl; [|done].
  intros sid l' Hsid. rewrite lookup_insert. case_decide; eauto.
Qed.

Lemma wf_join st sid user_id :
  wf st → wf (join_collaboration_session st sid user_id).1.
Proof.
  intros Hwf. unfold join_collaboration_session.
  destruct (collaboration_sessions st !! sid) as [l|]; [|done].
  destruct (heap st !! l) as [s|] eqn:Hl; [|done].
  case_bool_decide; [done|]. by eapply wf_heap_insert.
Qed.

Lemma wf_update st sid code user_id now :
  wf st → wf (update_collaboration_code st sid code user_id now).1.
Proof.
  intros Hwf. unfold update_collaboration_code.
  destruct (collaboration_sessions st !! sid) as [l|]; [|done].
  destruct (heap st !! l) as [s|] eqn:Hl; [|done].
  by eapply wf_heap_insert.
Qed.

Lemma step_wf st st' : step st st' → wf st → wf st'.
Proof.
  destruct 1; eauto using wf_create, wf_join, wf_update.
Qed.

(** Every store the methods build is well-formed. *)
Lemma reachable_wf st : reachable st → wf st.
Proof.
  unfold reachable. revert st. apply rtc_ind_r; [apply wf_init|].
  intros st st' _ Hstep Hwf. by eapply step_wf.
Qed.

(** No method clears the active flag. *)
Lemma step_all_active st st' : step st st' → all_active st → all_active st'.
Proof.
  intros Hstep Hact.
  destruct Hstep as [st sid code lang n1 n2|st sid u|st sid code u n].
  - intros l s. simpl. rewrite lookup_insert. case_decide.
    + by intros [= <-].
    + apply Hact.
  - unfold join_collaboration_session.
    destruct (collaboration_sessions st !! sid) as [l|]; [|done].
    destruct (heap st !! l) as [s|] eqn:Hl; [|done].
    case_bool_decide; [done|]. intros l' s'. simpl.
    rewrite lookup_insert. case_decide.
    + intros [= <-]. simpl. by eapply Hact.
    + apply Hact.
  - unfold update_collaboration_code.
    destruct (collaboration_sessions st !! sid) as [l|]; [|done].
    destruct (heap st !! l) as [s|] eqn:Hl; [|done].
    intros l' s'. simpl. rewrite lookup_insert. case_decide.
    + intros [= <-]. simpl. by eapply Hact.
    + apply Hact.
Qed.

Lemma reachable_all_active st : reachable st → all_active st.
Proof.
  unfold reachable. revert st. apply rtc_ind_r.
  - intros l s. simpl. by rewrite lookup_empty.
  - intros st st' _ Hstep Hact. by eapply step_all_active.
Qed.

Lemma reachable_live_store : reachable Examples.live_store.
Proof.
  unfold reachable, Examples.live_store.
  eapply rtc_r; [eapply rtc_once, step_create|apply step_join].
Qed.

Lemma reachable_two_stores : reachable Examples.two_stores.
Proof.
  unfold reachable, Examples.two_stores.
  eapply rtc_r; [apply reachable_live_store|apply step_create].
Qed.

(** Why [wf] asks for distinct objects: through an alias, an update under
    one identifier shows under the other. *)
Lemma update_through_alias :
  ¬ wf Examples.aliased_store
  ∧ (code_content <$> session_of Examples.aliased_store "s2") = Some "a=1"
  ∧ (code_content <$>
       session_of
         (update_collaboration_code Examples.aliased_store "s1" "a=2" "p1" 9).1
         "s2") = Some "a=2".
Proof.
  split; [|split; vm_compute; reflexivity].
  intros [_ Hinj]. by specialize (Hinj "s1" "s2" 1%positive eq_refl eq_refl).
Qed.

Lemma wf_inactive_store : wf Examples.inactive_store.
Proof.
  split; simpl.
  - intros sid l [<- <-]%lookup_singleton_Some.
    rewrite lookup_singleton_eq. eauto.
  - intros sid1 sid2 l [<- _]%lookup_singleton_Some
      [<- _]%lookup_singleton_Some. done.
Qed.

End SessionFacts.

Module SessionSpec.
Import Sessions SessionFacts Examples.

(** What [update_collaboration_code] does on a bound identifier. *)
Lemma update_bound st sid new_code user_id now s :
  session_of st sid = Some s →
  ∃ l, collaboration_sessions st !! sid = Some l
       ∧ heap st !! l = Some s
       ∧ update_collaboration_code st sid new_code user_id now =
           ({| collaboration_sessions := collaboration_sessions st;
               heap := <[l := set_code new_code now s]> (heap st) |}, true).
Proof.
  intros (l & Hsid & Hl)%session_of_Some. exists l.
  unfold update_collaboration_code. by rewrite Hsid, Hl.
Qed.

Lemma update_bound_session_of st sid new_code user_id now s :
  session_of st sid = Some s →
  session_of (update_collaboration_code st sid new_code user_id now).1 sid
  = Some (set_code new_code now s).
Proof.
  intros Hs.
  destruct (update_bound st sid new_code user_id now s Hs)
    as (l & Hsid & Hl & ->).
  unfold session_of. simpl. rewrite Hsid. simpl. by rewrite lookup_insert_eq.
Qed.

Lemma update_unbound st sid new_code user_id now :
  session_of st sid = None →
  update_collaboration_code st sid new_code user_id now = (st, false).
Proof.
  unfold session_of, update_collaboration_code.
  destruct (collaboration_sessions st !! sid) as [l|]; simpl; [|done].
  by intros ->.
Qed.

(** C7. A successful content update replaces the code content of the
    session by the new code, sets its last-modified field to the time of
    the update, keeps its identifier, participants, language, creation
    time and active flag, keeps the dictionary of identifiers, and leaves
    every other session, and every other session object, as it was. *)
Theorem update_content_frame st sid new_code user_id now s :
  wf st →
  session_of st sid = Some s →
  let out := update_collaboration_code st sid new_code user_id now in
  out.2 = true
  ∧ session_of out.1 sid =
      Some {| session_id := session_id s;
              participants := participants s;
              code_content := new_code;
              language := language s;
              created_at := created_at s;
              last_modified := now;
              is_active := is_active s |}
  ∧ collaboration_sessions out.1 = collaboration_sessions st
  ∧ (∀ sid', sid' ≠ sid → session_of out.1 sid' = session_of st sid')
  ∧ (∀ l, collaboration_sessions st !! sid ≠ Some l →
          heap out.1 !! l = heap st !! l).
Proof.
  intros [Hlive Hinj] Hs.
  destruct (update_bound st sid new_code user_id now s Hs)
    as (l & Hsid & Hl & ->).
  simpl. repeat split.
  - unfold session_of. simpl. rewrite Hsid. simpl.
    by rewrite lookup_insert_eq.
  - intros sid' Hne. unfold session_of. simpl.
    destruct (collaboration_sessions st !! sid') as [l'|] eqn:Hsid';
      simpl; [|done].
    rewrite lookup_insert_ne; [done|].
    intros <-. apply Hne. by eapply Hinj.
  - intros l' Hl'. rewrite lookup_insert_ne; [done|]. congruence.
Qed.

Lemma update_content_frame_witness :
  wf two_stores
  ∧ (code_content <$> session_of two_stores "s1") = Some "a=1"
  ∧ (update_collaboration_code two_stores "s1" "a=2" "p1" 9).2 = true
  ∧ session_of (update_collaboration_code two_stores "s1" "a=2" "p1" 9).1 "s1"
    = Some {| session_id := "s1"; participants := ["p1"];
              code_content := "a=2"; language := PYTHON;
              created_at := 1; last_modified := 9; is_active := true |}
  ∧ session_of (update_collaboration_code two_stores "s1" "a=2" "p1" 9).1 "s2"
    = session_of two_stores "s2".
Proof.
  pose proof (reachable_wf _ reachable_two_stores) as Hwf.
  assert (session_of two_stores "s1"
          = Some {| session_id := "s1"; participants := ["p1"];
                    code_content := "a=1"; language := PYTHON;
                    created_at := 1; last_modified := 2;
                    is_active := true |}) as Hs
    by (vm_compute; reflexivity).
  destruct (update_content_frame two_stores "s1" "a=2" "p1" 9 _ Hwf Hs)
    as (Hret & Hsame & _ & Hother & _).
  split; [exact Hwf|]. split; [by rewrite Hs|].
  split; [exact Hret|]. split; [exact Hsame|].
  apply Hother. discriminate.
Defined.

(** C10. An update of a stored session is accepted for every participant
    identifier, also one that never joined the session: it returns true
    and replaces the content, and the identifier passed has no effect on
    the returned value or on the resulting store. *)
Theorem update_ignores_participant st sid new_code user_id now s :
  session_of st sid = Some s →
  (update_collaboration_code st sid new_code user_id now).2 = true
  ∧ session_of (update_collaboration_code st sid new_code user_id now).1 sid
    = Some (set_code new_code now s)
  ∧ (∀ other_id,
       update_collaboration_code st sid new_code other_id now
       = update_collaboration_code st sid new_code user_id now).
Proof.
  intros Hs. split; [|split].
  - by destruct (update_bound st sid new_code user_id now s Hs)
      as (l & _ & _ & ->).
  - by apply update_bound_session_of.
  - intros other_id.
    destruct (update_bound st sid new_code user_id now s Hs)
      as (l & Hsid & Hl & ->).
    unfold update_collaboration_code. by rewrite Hsid, Hl.
Qed.

Lemma update_ignores_participant_witness :
  (participants <$> session_of live_store "s1") = Some ["p1"]
  ∧ ("stranger" ∉ ["p1"])
  ∧ (update_collaboration_code live_store "s1" "a=2" "stranger" 9).2 = true
  ∧ (code_content <$>
       session_of
         (update_collaboration_code live_store "s1" "a=2" "stranger" 9).1
         "s1") = Some "a=2"
  ∧ update_collaboration_code live_store "s1" "a=2" "p1" 9
    = update_collaboration_code live_store "s1" "a=2" "stranger" 9.
Proof.
  assert (session_of live_store "s1"
          = Some {| session_id := "s1"; participants := ["p1"];
                    code_content := "a=1"; language := PYTHON;
                    created_at := 1; last_modified := 2;
                    is_active := true |}) as Hs
    by (vm_compute; reflexivity).
  destruct (update_ignores_participant live_store "s1" "a=2" "stranger" 9 _ Hs)
    as (Hret & Hsame & Hany).
  split; [by rewrite Hs|].
  split; [by intros [=]%list_elem_of_singleton|].
  split; [exact Hret|]. split; [by rewrite Hsame|]. apply Hany.
Defined.

(** C2 (as amended). A content update returns true exactly when the
    identifier is bound to a session in the store; it then replaces the
    content of that session whatever its active flag is (the flag is kept
    and never read); when no session is bound to the identifier it returns
    false and leaves the store as it was. *)
Theorem update_accepts_iff_present st sid new_code user_id now :
  ((update_collaboration_code st sid new_code user_id now).2 = true
   ↔ is_Some (session_of st sid))
  ∧ (∀ s, session_of st sid = Some s →
          session_of (update_collaboration_code st sid new_code user_id now).1
                     sid
          = Some {| session_id := session_id s;
                    participants := participants s;
                    code_content := new_code;
                    language := language s;
                    created_at := created_at s;
                    last_modified := now;
                    is_active := is_active s |})
  ∧ (session_of st sid = None →
     update_collaboration_code st sid new_code user_id now = (st, false)).
Proof.
  split; [|split].
  - destruct (session_of st sid) as [s|] eqn:Hs.
    + destruct (update_bound st sid new_code user_id now s Hs)
        as (l & _ & _ & ->). simpl. split; eauto.
    + rewrite update_unbound by done. simpl. split; [done|].
      by intros [? [=]].
  - intros s Hs. by apply update_bound_session_of.
  - apply update_unbound.
Qed.

(** C2, the claim as stated fails: the session "s1" of [inactive_store]
    is stored and deactivated, yet the update returns true and the stored
    content becomes the new code. *)
Lemma update_deactivated_counterexample :
  wf inactive_store
  ∧ session_of inactive_store "s1" = Some inactive_session
  ∧ is_active inactive_session = false
  ∧ (update_collaboration_code inactive_store "s1" "a=2" "p1" 7).2 ≠ false
  ∧ (code_content <$>
       session_of (update_collaboration_code inactive_store "s1" "a=2" "p1" 7).1
                  "s1") = Some "a=2"
  ∧ code_content inactive_session ≠ "a=2".
Proof.
  split; [apply wf_inactive_store|].
  repeat split; try (vm_compute; reflexivity); vm_compute; discriminate.
Qed.



(** C8. Joining under an identifier that is bound to no session returns
    no session (the code's form of the not-found failure), never a session
    object, and leaves the store, dictionary and session objects alike,
    exactly as it was. *)
Theorem join_missing_session st sid user_id :
  collaboration_sessions st !! sid = None →
  join_collaboration_session st sid user_id = (st, None).
Proof. intros Hsid. unfold join_collaboration_session. by rewrite Hsid. Qed.

Lemma join_missing_session_witness :
  collaboration_sessions live_store !! "s9" = None
  ∧ join_collaboration_session live_store "s9" "p2" = (live_store, None).
Proof.
  assert (collaboration_sessions live_store !! "s9" = None) as Hsid
    by (vm_compute; reflexivity).
  split; [exact Hsid|].
  exact (join_missing_session live_store "s9" "p2" Hsid).
Defined.

End SessionSpec.

(** ** Properties of the analyzers *)

Module AnalyzerFacts.
Import Analyzer.

(** *** Scores *)

Lemma clamp_score_bounds z :
  (z <= 100)%Z → (0 <= clamp_score z <= 100)%Q.
Proof.
  intros Hz. unfold clamp_score. split.
  - change (inject_Z 0 <= inject_Z (Z.max 0 z))%Q.
    rewrite <- Zle_Qle. lia.
  - change (inject_Z (Z.max 0 z) <= inject_Z 100)%Q.
    rewrite <- Zle_Qle. lia.
Qed.

Lemma inject_nat_nonneg n : (0 <= inject_Z (Z.of_nat n))%Q.
Proof.
  change (inject_Z 0 <= inject_Z (Z.of_nat n))%Q. rewrite <- Zle_Qle. lia.
Qed.

Lemma avg_complexity_nonneg blocks : (0 <= avg_complexity blocks)%Q.
Proof.
  destruct blocks as [|block blocks]; [apply Qle_refl|].
  unfold avg_complexity, Qdiv. apply Qmult_le_0_compat.
  - apply inject_nat_nonneg.
  - apply Qinv_le_0_compat, inject_nat_nonneg.
Qed.

Lemma radon_score_bounds blocks :
  (0 <= Qmax 0 (100 - avg_complexity blocks * 5) <= 100)%Q.
Proof.
  split; [apply Q.le_max_l|].
  apply Q.max_lub; [done|].
  pose proof (avg_complexity_nonneg blocks) as Havg.
  assert (0 <= avg_complexity blocks * 5)%Q as Hprod
    by (apply Qmult_le_0_compat; done).
  rewrite <- (Qplus_0_r 100) at 2. unfold Qminus.
  apply Qplus_le_r. apply (Qopp_le_compat 0). exact Hprod.
Qed.

Lemma basic_complexity_score_bounds code lang now :
  (0 <= score (_basic_complexity_analysis code lang now) <= 100)%Q.
Proof. apply clamp_score_bounds. lia. Qed.

Lemma basic_security_score_bounds code lang now :
  (0 <= score (_basic_security_analysis code lang now) <= 100)%Q.
Proof. apply clamp_score_bounds. lia. Qed.

Lemma basic_style_score_bounds code lang now :
  (0 <= score (_basic_style_analysis code lang now) <= 100)%Q.
Proof. apply clamp_score_bounds. lia. Qed.

(** C1. For every code string, every language and every behaviour of the
    external tools, the complexity, security and style analyzers return a
    score between 0 and 100; so do the three fallback heuristics on their
    own, however many issues they find. *)
Theorem analyzer_scores_bounded tools code lang now :
  (0 <= score (analyze_complexity tools code lang now) <= 100)%Q
  ∧ (0 <= score (analyze_security tools code lang now) <= 100)%Q
  ∧ (0 <= score (analyze_style tools code lang now) <= 100)%Q
  ∧ (0 <= score (_basic_complexity_analysis code lang now) <= 100)%Q
  ∧ (0 <= score (_basic_security_analysis code lang now) <= 100)%Q
  ∧ (0 <= score (_basic_style_analysis code lang now) <= 100)%Q.
Proof.
  split; [|split; [|split]].
  - unfold analyze_complexity. case_decide.
    { apply basic_complexity_score_bounds. }
    destruct (ast_parse tools code), (radon_blocks tools code),
      (radon_analyze tools code);
      try apply basic_complexity_score_bounds.
    apply radon_score_bounds.
  - unfold analyze_security. case_decide.
    { apply basic_security_score_bounds. }
    destruct (bandit_run tools code);
      [|apply basic_security_score_bounds].
    apply clamp_score_bounds. lia.
  - unfold analyze_style. case_decide.
    { apply basic_style_score_bounds. }
    destruct (pylint_run tools code); [|apply basic_style_score_bounds].
    apply clamp_score_bounds. lia.
  - auto using basic_complexity_score_bounds, basic_security_score_bounds,
      basic_style_score_bounds.
Qed.

(** *** Dispatch on the language *)

Lemma analyze_complexity_fallback tools code lang now :
  lang ≠ PYTHON →
  analyze_complexity tools code lang now
  = _basic_complexity_analysis code lang now.
Proof. intros Hl. unfold analyze_complexity. by case_decide. Qed.

Lemma analyze_security_fallback tools code lang now :
  lang ≠ PYTHON →
  analyze_security tools code lang now
  = _basic_security_analysis code lang now.
Proof. intros Hl. unfold analyze_security. by case_decide. Qed.

Lemma analyze_style_fallback tools code lang now :
  lang ≠ PYTHON →
  analyze_style tools code lang now = _basic_style_analysis code lang now.
Proof. intros Hl. unfold analyze_style. by case_decide. Qed.

(** *** Substrings *)

(** The membership test holds exactly when there is an occurrence. *)
Lemma contains_occurrences sub s :
  Str.contains sub s = (0 <? Str.occurrences sub s)%nat.
Proof.
  induction s as [|c s IH]; cbn [Str.contains Str.occurrences].
  - by destruct (String.prefix sub EmptyString).
  - rewrite IH. by destruct (String.prefix sub (String c s)).
Qed.

(** Splitting at a character and joining with it gives the text back. *)
Lemma split_not_nil sep s : Str.split sep s ≠ [].
Proof.
  destruct s as [|c s]; simpl; [done|].
  destruct (Ascii.eqb c sep); [done|]. by destruct (Str.split sep s).
Qed.

Lemma concat_cons sep (x : string) (xs : list string) :
  xs ≠ [] →
  String.concat sep (x :: xs) = x +:+ sep +:+ String.concat sep xs.
Proof. by destruct xs. Qed.

Lemma join_split sep s :
  Str.join (String sep EmptyString) (Str.split sep s) = s.
Proof.
  unfold Str.join. induction s as [|c s IH]; [done|].
  cbn [Str.split]. pose proof (split_not_nil sep s) as Hne.
  destruct (Ascii.eqb_spec c sep) as [->|Hc].
  - rewrite concat_cons by done. by rewrite IH.
  - destruct (Str.split sep s) as [|w ws]; [done|].
    destruct ws as [|w' ws]; [by rewrite <- IH|].
    rewrite concat_cons in IH by done. rewrite concat_cons by done.
    by rewrite <- IH.
Qed.

(** A line is kept as non-blank exactly when one of its characters is not
    white space. *)
Lemma rstrip_truthy s : Str.truthy (Str.rstrip s) = Str.has_ink s.
Proof.
  unfold Str.has_ink. induction s as [|c s IH]; [done|].
  cbn [Str.rstrip list_ascii_of_string existsb]. rewrite <- IH.
  destruct (Str.rstrip s); simpl; [|by rewrite orb_true_r].
  rewrite orb_false_r. by destruct (Str.isspace c).
Qed.

Lemma lstrip_has_ink s : Str.has_ink (Str.lstrip s) = Str.has_ink s.
Proof.
  unfold Str.has_ink. induction s as [|c s IH]; [done|].
  cbn [Str.lstrip]. destruct (Str.isspace c) eqn:Hc; [|done].
  rewrite IH. simpl. by rewrite Hc.
Qed.

Lemma strip_truthy s : Str.truthy (Str.strip s) = Str.has_ink s.
Proof. unfold Str.strip. by rewrite rstrip_truthy, lstrip_has_ink. Qed.

Lemma non_empty_lines_ink code :
  non_empty_lines code
  = List.filter Str.has_ink (Str.split Str.newline code).
Proof.
  unfold non_empty_lines. apply List.filter_ext. intros line.
  apply strip_truthy.
Qed.

(** *** The keyword count of the complexity fallback *)

Lemma filter_pair_length {A B} (f : A * B → bool) (x : A) (l : list B) :
  length (List.filter f (map (pair x) l))
  = length (List.filter (fun y => f (x, y)) l).
Proof.
  induction l as [|y l IH]; simpl; [done|].
  destruct (f (x, y)); simpl; by rewrite IH.
Qed.

Lemma flat_map_filter_length {A B} (f : A * B → bool) (l : list A)
    (l' : list B) :
  length (flat_map (fun x => List.filter (fun y => f (x, y)) l') l)
  = length (List.filter f (list_prod l l')).
Proof.
  induction l as [|x l IH]; simpl; [done|].
  rewrite List.filter_app, !length_app, IH. f_equal.
  symmetry. apply filter_pair_length.
Qed.

(** The count is the number of pairs of a non-blank line and a keyword
    such that the keyword occurs at least once in the lower-cased line. *)
Lemma complexity_count_pairs code :
  complexity_count code
  = length (List.filter
              (fun p : string * string =>
                 (0 <? Str.occurrences p.2 (Str.lower p.1))%nat)
              (line_keyword_pairs code)).
Proof.
  unfold complexity_count, line_keyword_pairs.
  rewrite <- flat_map_filter_length. f_equal.
  apply flat_map_ext. intros line. unfold indicators_in.
  apply List.filter_ext. intros kw. simpl. apply contains_occurrences.
Qed.

(** C4 (as amended). In a language other than Python the complexity
    analyzer counts the pairs of a non-blank line and a keyword of
    {if, else, for, while, switch, case, try, catch} such that the keyword
    occurs at least once in the lower-cased line (a keyword repeated in
    one line counts once); the score is max(0, 100 - 2 * count); there is
    exactly one suggestion when count > 10 and none otherwise; there are
    no issues. *)
Theorem complexity_fallback tools code lang now :
  lang ≠ PYTHON →
  complexity_count code
  = length (List.filter
              (fun p : string * string =>
                 (0 <? Str.occurrences p.2 (Str.lower p.1))%nat)
              (line_keyword_pairs code))
  ∧ score (analyze_complexity tools code lang now)
    = inject_Z (Z.max 0 (100 - 2 * Z.of_nat (complexity_count code)))
  ∧ (length (suggestions (analyze_complexity tools code lang now)) = 1
     ↔ (10 < complexity_count code)%nat)
  ∧ (suggestions (analyze_complexity tools code lang now) = []
     ↔ (complexity_count code ≤ 10)%nat)
  ∧ issues (analyze_complexity tools code lang now) = [].
Proof.
  intros Hlang. rewrite analyze_complexity_fallback by done.
  split; [apply complexity_count_pairs|].
  unfold _basic_complexity_analysis, clamp_score. simpl.
  split; [do 2 f_equal; lia|].
  destruct (Nat.ltb_spec 10 (complexity_count code)) as [Hgt|Hle]; simpl.
  - split; [done|]. split; [|done]. split; [done|lia].
  - split; [split; [done|lia]|]. split; [|done]. split; [lia|done].
Qed.

Lemma complexity_fallback_witness :
  JAVASCRIPT ≠ PYTHON
  ∧ complexity_count Examples.twelve_loops = 12
  ∧ score (analyze_complexity Examples.no_tools Examples.twelve_loops
                              JAVASCRIPT 0) = 76%Q
  ∧ length (suggestions
              (analyze_complexity Examples.no_tools Examples.twelve_loops
                                  JAVASCRIPT 0)) = 1.
Proof.
  assert (JAVASCRIPT ≠ PYTHON) as Hlang by discriminate.
  assert (complexity_count Examples.twelve_loops = 12) as Hcount
    by (vm_compute; reflexivity).
  destruct (complexity_fallback Examples.no_tools Examples.twelve_loops
                                JAVASCRIPT 0 Hlang)
    as (_ & Hscore & Hone & _ & _).
  split; [exact Hlang|]. split; [exact Hcount|]. split.
  - rewrite Hscore, Hcount. reflexivity.
  - apply Hone. rewrite Hcount. lia.
Defined.

(** C4, the claim as stated fails: the one line of [eleven_ifs] holds
    eleven occurrences of the keyword "if", so the claim asks for the score
    max(0, 100 - 2 * 11) = 78 and for one suggestion; the analyzer counts
    the line once, returns 98 and suggests nothing. *)
Lemma complexity_occurrences_counterexample :
  keyword_occurrences Examples.eleven_ifs = 11
  ∧ score (analyze_complexity Examples.no_tools Examples.eleven_ifs
                              JAVASCRIPT 0) = 98%Q
  ∧ ¬ (score (analyze_complexity Examples.no_tools Examples.eleven_ifs
                                 JAVASCRIPT 0)
       == inject_Z
            (Z.max 0 (100 - 2 * Z.of_nat
                                  (keyword_occurrences Examples.eleven_ifs))))%Q
  ∧ suggestions (analyze_complexity Examples.no_tools Examples.eleven_ifs
                                    JAVASCRIPT 0) = [].
Proof.
  repeat split; try (vm_compute; reflexivity).
  intros Heq. vm_compute in Heq. discriminate.
Qed.

(** *** The pattern scan of the security fallback *)

Lemma lower_char_idempotent c :
  Str.lower_char (Str.lower_char c) = Str.lower_char c.
Proof. destruct c as [[] [] [] [] [] [] [] []]; reflexivity. Qed.

Lemma lower_idempotent s : Str.lower (Str.lower s) = Str.lower s.
Proof.
  induction s as [|c s IH]; simpl; [done|].
  by rewrite lower_char_idempotent, IH.
Qed.

Lemma map_pair_filter {A B} (f : B → bool) (x : A) (l : list B) :
  map (pair x) (List.filter f l)
  = List.filter (fun m : A * B => f m.2) (map (pair x) l).
Proof.
  induction l as [|y l IH]; simpl; [done|].
  destruct (f y); simpl; by rewrite IH.
Qed.

Lemma flat_map_pair_filter {A B} (f : B → bool) (table : list (A * list B)) :
  flat_map (fun entry => map (pair entry.1) (List.filter f entry.2)) table
  = List.filter (fun m : A * B => f m.2)
                (flat_map (fun entry => map (pair entry.1) entry.2) table).
Proof.
  induction table as [|entry table IH]; simpl; [done|].
  by rewrite List.filter_app, IH, map_pair_filter.
Qed.

(** The nested loops visit the fourteen patterns in table order. *)
Lemma security_matches_table code :
  security_matches code
  = List.filter (fun m : string * string => pattern_found code m.2)
                pattern_table.
Proof.
  unfold security_matches.
  by rewrite (flat_map_pair_filter (pattern_found code) security_patterns).
Qed.

Lemma security_issues_fallback tools code lang now :
  lang ≠ PYTHON →
  issues (analyze_security tools code lang now)
  = map security_issue
      (List.filter
         (fun m : string * string =>
            Str.contains (Str.lower m.2) (Str.lower code))
         pattern_table).
Proof.
  intros Hlang. rewrite analyze_security_fallback by done. simpl.
  by rewrite security_matches_table.
Qed.

(** C5. In a language other than Python the security analyzer compares the
    lower-cased text with the lower-cased patterns of the four families
    (SQL statements, DOM sinks, credential names, shell and eval calls):
    it records, in table order, one issue of severity medium for every
    pattern found in the text, and nothing else; the score is
    max(0, 100 - 10 * number of issues); texts that differ in letter case
    only get the same issues. *)
Theorem security_fallback tools code lang now :
  lang ≠ PYTHON →
  issues (analyze_security tools code lang now)
  = map security_issue
      (List.filter
         (fun m : string * string =>
            Str.contains (Str.lower m.2) (Str.lower code))
         pattern_table)
  ∧ Forall (fun issue => dict_get "severity" issue = Some (PyStr "medium"))
           (issues (analyze_security tools code lang now))
  ∧ score (analyze_security tools code lang now)
    = inject_Z
        (Z.max 0
           (100 - 10 * Z.of_nat
                         (length (issues
                                    (analyze_security tools code lang now)))))
  ∧ (∀ code', Str.lower code' = Str.lower code →
              issues (analyze_security tools code' lang now)
              = issues (analyze_security tools code lang now))
  ∧ issues (analyze_security tools (Str.lower code) lang now)
    = issues (analyze_security tools code lang now).
Proof.
  intros Hlang.
  pose proof (security_issues_fallback tools code lang now Hlang) as Hiss.
  assert (∀ code', Str.lower code' = Str.lower code →
                   issues (analyze_security tools code' lang now)
                   = issues (analyze_security tools code lang now)) as Hcase.
  { intros code' Hlow.
    rewrite Hiss, (security_issues_fallback tools code') by done.
    by rewrite Hlow. }
  split; [exact Hiss|]. split; [|split; [|split]].
  - rewrite Hiss. apply Forall_map, Forall_forall. by intros m _.
  - rewrite analyze_security_fallback by done.
    unfold _basic_security_analysis, clamp_score. simpl.
    do 2 f_equal. lia.
  - exact Hcase.
  - apply Hcase, lower_idempotent.
Qed.

Lemma security_fallback_witness :
  JAVA ≠ PYTHON
  ∧ issues (analyze_security Examples.no_tools Examples.leaky JAVA 0)
    = [[("type", PyStr "xss"); ("pattern", PyStr "eval");
        ("severity", PyStr "medium")];
       [("type", PyStr "hardcoded_secrets"); ("pattern", PyStr "password");
        ("severity", PyStr "medium")]]
  ∧ score (analyze_security Examples.no_tools Examples.leaky JAVA 0) = 80%Q.
Proof.
  assert (JAVA ≠ PYTHON) as Hlang by discriminate.
  destruct (security_fallback Examples.no_tools Examples.leaky JAVA 0 Hlang)
    as (Hissues & _ & Hscore & _).
  split; [exact Hlang|]. split.
  - rewrite Hissues. vm_compute. reflexivity.
  - rewrite Hscore, Hissues. vm_compute. reflexivity.
Defined.

(** *** The long lines of the style fallback *)

Lemma elem_of_enumerate {A} (start : nat) (l : list A) i x :
  (i, x) ∈ enumerate start l ↔ start ≤ i ∧ l !! (i - start) = Some x.
Proof.
  unfold enumerate. revert start.
  induction l as [|a l IH]; intros start; simpl.
  - rewrite elem_of_nil, lookup_nil. split; [done|by intros [_ [=]]].
  - rewrite elem_of_cons, IH. split.
    + intros [[= -> ->]|[Hle Hl]].
      * by rewrite Nat.sub_diag.
      * split; [lia|].
        by replace (i - start) with (S (i - S start)) by lia.
    + intros [Hle Hl]. destruct (decide (i = start)) as [->|Hne].
      * rewrite Nat.sub_diag in Hl. simplify_eq/=. by left.
      * right. split; [lia|].
        by replace (i - start) with (S (i - S start)) in Hl by lia.
Qed.

Lemma enumerate_filter_length {A} (f : A → bool) (start : nat) (l : list A) :
  length (List.filter (fun il : nat * A => f il.2) (enumerate start l))
  = length (List.filter f l).
Proof.
  unfold enumerate. revert start.
  induction l as [|a l IH]; intros start; simpl; [done|].
  destruct (f a); simpl; by rewrite IH.
Qed.

Lemma filter_none {A} (f : A → bool) (l : list A) :
  (∀ j y, l !! j = Some y → f y = false) → List.filter f l = [].
Proof.
  induction l as [|a l IH]; intros Hall; simpl; [done|].
  rewrite (Hall 0 a) by done. apply IH.
  intros j y Hj. by apply (Hall (S j)).
Qed.

(** One element at which the test holds, and no other index. *)
Lemma filter_unique_length {A} (f : A → bool) (l : list A) i x :
  l !! i = Some x → f x = true →
  (∀ j y, l !! j = Some y → f y = true → j = i) →
  length (List.filter f l) = 1.
Proof.
  revert i. induction l as [|a l IH]; intros i Hi Hx Huniq; [done|].
  simpl. destruct i as [|i]; simpl in Hi.
  - simplify_eq. rewrite Hx. simpl. rewrite filter_none; [done|].
    intros j y Hj. destruct (f y) eqn:Hy; [|done].
    by specialize (Huniq (S j) y Hj Hy).
  - destruct (f a) eqn:Ha.
    { by specialize (Huniq 0 a eq_refl Ha). }
    apply (IH i); [done..|].
    intros j y Hj Hy. specialize (Huniq (S j) y Hj Hy). lia.
Qed.

Lemma elem_of_long_lines code i line :
  (i, line) ∈ long_lines code
  ↔ 1 ≤ i
    ∧ Str.split Str.newline code !! (i - 1) = Some line
    ∧ 120 < String.length line.
Proof.
  unfold long_lines. rewrite list_elem_of_In, filter_In, <- list_elem_of_In.
  rewrite elem_of_enumerate. simpl. rewrite Nat.ltb_lt. tauto.
Qed.

(** C6. In a language other than Python the style analyzer reports
    exactly the lines (numbered from 1, split at line feeds) longer than
    120 characters: one issue of severity low for each, so as many issues
    as there are such lines; the score is max(0, 100 - 5 * number of
    issues). In particular, when exactly one line is longer than 120
    characters there is exactly one issue and the score is 95. *)
Theorem style_fallback tools code lang now :
  lang ≠ PYTHON →
  issues (analyze_style tools code lang now)
  = map style_issue (long_lines code)
  ∧ (∀ i line,
       (i, line) ∈ long_lines code
       ↔ 1 ≤ i
         ∧ Str.split Str.newline code !! (i - 1) = Some line
         ∧ 120 < String.length line)
  ∧ length (issues (analyze_style tools code lang now))
    = length (List.filter (fun line => (120 <? String.length line)%nat)
                          (Str.split Str.newline code))
  ∧ Forall (fun issue => dict_get "severity" issue = Some (PyStr "low"))
           (issues (analyze_style tools code lang now))
  ∧ score (analyze_style tools code lang now)
    = inject_Z
        (Z.max 0
           (100 - 5 * Z.of_nat
                        (length (issues
                                   (analyze_style tools code lang now)))))
  ∧ (∀ i line,
       Str.split Str.newline code !! i = Some line →
       120 < String.length line →
       (∀ j other, Str.split Str.newline code !! j = Some other →
                   120 < String.length other → j = i) →
       issues (analyze_style tools code lang now)
       = [[("type", PyStr "line_too_long"); ("line", pyint (S i));
           ("length", pyint (String.length line));
           ("severity", PyStr "low")]]
       ∧ score (analyze_style tools code lang now) = 95%Q).
Proof.
  intros Hlang. rewrite analyze_style_fallback by done.
  assert (length (issues (_basic_style_analysis code lang now))
          = length (List.filter (fun line => (120 <? String.length line)%nat)
                                (Str.split Str.newline code))) as Hlen.
  { simpl. rewrite length_map. unfold long_lines.
    apply (enumerate_filter_length
             (fun line => (120 <? String.length line)%nat)). }
  assert (score (_basic_style_analysis code lang now)
          = inject_Z
              (Z.max 0
                 (100 - 5 * Z.of_nat
                              (length (issues (_basic_style_analysis
                                                 code lang now))))))
    as Hscore.
  { unfold _basic_style_analysis, clamp_score. simpl. do 2 f_equal. lia. }
  split; [done|]. split; [apply elem_of_long_lines|].
  split; [exact Hlen|]. split; [|split; [exact Hscore|]].
  - simpl. apply Forall_map, Forall_forall. by intros il _.
  - intros i line Hi Hlong Huniq.
    assert (length (long_lines code) = 1) as Hone.
    { unfold long_lines.
      rewrite (enumerate_filter_length
                 (fun line => (120 <? String.length line)%nat)).
      apply (filter_unique_length _ _ i line); [done|by apply Nat.ltb_lt|].
      intros j other Hj Hother. apply (Huniq j other Hj).
      by apply Nat.ltb_lt. }
    assert ((S i, line) ∈ long_lines code) as Hin.
    { apply elem_of_long_lines. simpl. rewrite Nat.sub_0_r. split; [lia|done]. }
    destruct (long_lines code) as [|il [|il' rest]] eqn:Hll; try done.
    apply list_elem_of_singleton in Hin. subst il.
    split.
    + simpl. by rewrite Hll.
    + rewrite Hscore. simpl. by rewrite Hll.
Qed.

Lemma style_fallback_witness :
  JAVA ≠ PYTHON
  ∧ Str.split Str.newline Examples.one_long_line !! 1
    = Some (Str.join EmptyString (repeat "x" 121))
  ∧ length (issues (analyze_style Examples.no_tools Examples.one_long_line
                                  JAVA 0)) = 1
  ∧ score (analyze_style Examples.no_tools Examples.one_long_line JAVA 0)
    = 95%Q.
Proof.
  assert (JAVA ≠ PYTHON) as Hlang by discriminate.
  assert (Str.split Str.newline Examples.one_long_line !! 1
          = Some (Str.join EmptyString (repeat "x" 121))) as Hline
    by (vm_compute; reflexivity).
  destruct (style_fallback Examples.no_tools Examples.one_long_line JAVA 0
                           Hlang) as (_ & _ & _ & _ & _ & Hone).
  destruct (Hone 1 (Str.join EmptyString (repeat "x" 121)) Hline) as [Hissues Hscore].
  - vm_compute. lia.
  - intros j other Hj Hother.
    destruct j as [|[|[|j]]]; vm_compute in Hj; simplify_eq;
      try done; vm_compute in Hother; lia.
  - split; [exact Hlang|]. split; [exact Hline|].
    split; [by rewrite Hissues|exact Hscore].
Defined.

End AnalyzerFacts.

(** ** Properties of the bug detector *)

Module AppFacts.
Import App.

(** Python code with a bare handler gets the bare-except message. *)
Lemma bare_except_detected lang src :
  Str.lower lang = "python" →
  Str.contains "except:" src = true →
  "Bare except clause detected - should catch specific exceptions"
    ∈ bugs_found lang src.
Proof.
  intros Hlang Hsrc. unfold bugs_found, python_bugs.
  rewrite Hlang, Hsrc. simpl. apply elem_of_cons. by left.
Qed.

(** The heuristic scans of [CodeAnalyzer], which the analyzers fall back
    to when bandit or pylint fail, find nothing in the scenario's code. *)
Lemma bare_except_fallback_silent now :
  Analyzer.issues
    (Analyzer.analyze_security Examples.no_tools Examples.bare_except
                               PYTHON now) = []
  ∧ Analyzer.issues
      (Analyzer.analyze_style Examples.no_tools Examples.bare_except
                              PYTHON now) = [].
Proof. split; vm_compute; reflexivity. Qed.

(** With Python code the security analyzer reports what bandit finds, one
    issue per finding, with the text of the finding. *)
Lemma bandit_findings_reported tools src found now :
  Analyzer.bandit_run tools src = Some found →
  Analyzer.issues (Analyzer.analyze_security tools src PYTHON now)
  = map Analyzer.bandit_issue found.
Proof.
  intros Hrun. unfold Analyzer.analyze_security.
  case_decide; [done|]. by rewrite Hrun.
Qed.


End AppFacts.


(** ** Further properties of the session methods *)

Module SessionExtras.
Import Sessions SessionFacts.

(** The function a join applies to the session object. *)
Lemma join_as_alter st sid user_id :
  (join_collaboration_session st sid user_id).1
  = {| collaboration_sessions := collaboration_sessions st;
       heap :=
         match collaboration_sessions st !! sid with
         | Some l =>
             alter (fun s => if bool_decide (user_id ∈ participants s)
                             then s else append_participant user_id s)
                   l (heap st)
         | None => heap st
         end |}.
Proof.
  unfold join_collaboration_session. destruct st as [dict objs]. simpl.
  destruct (dict !! sid) as [l|]; [|done].
  destruct (objs !! l) as [s|] eqn:Hl; simpl.
  - case_bool_decide as Hin; simpl; f_equal; apply map_eq; intros l';
      rewrite lookup_alter; case_decide; subst; rewrite ?Hl; simpl;
      rewrite ?bool_decide_true, ?bool_decide_false by done;
      by rewrite ?lookup_insert_eq, ?lookup_insert_ne by done.
  - f_equal. apply map_eq. intros l'. rewrite lookup_alter.
    case_decide; subst; by rewrite ?Hl.
Qed.

Lemma update_as_alter st sid new_code user_id now :
  (update_collaboration_code st sid new_code user_id now).1
  = {| collaboration_sessions := collaboration_sessions st;
       heap :=
         match collaboration_sessions st !! sid with
         | Some l => alter (set_code new_code now) l (heap st)
         | None => heap st
         end |}.
Proof.
  unfold update_collaboration_code. destruct st as [dict objs]. simpl.
  destruct (dict !! sid) as [l|]; [|done].
  destruct (objs !! l) as [s|] eqn:Hl; simpl; f_equal; apply map_eq;
    intros l'; rewrite lookup_alter; case_decide; subst; rewrite ?Hl; simpl;
    by rewrite ?lookup_insert_eq, ?lookup_insert_ne by done.
Qed.

Lemma update_result st sid new_code user_id now :
  (update_collaboration_code st sid new_code user_id now).2
  = bool_decide (is_Some (session_of st sid)).
Proof.
  unfold update_collaboration_code, session_of.
  destruct (collaboration_sessions st !! sid) as [l|]; simpl;
    [destruct (heap st !! l) as [s|]; simpl|]; done.
Qed.

Lemma join_result st sid user_id :
  (join_collaboration_session st sid user_id).2
  = collaboration_sessions st !! sid ≫= fun l => heap st !! l ≫= fun _ => Some l.
Proof.
  unfold join_collaboration_session.
  destruct (collaboration_sessions st !! sid) as [l|]; simpl; [|done].
  destruct (heap st !! l); simpl; [|done]. by case_bool_decide.
Qed.

Lemma join_session_of st sid user_id s :
  session_of st sid = Some s →
  session_of (join_collaboration_session st sid user_id).1 sid
  = Some (if bool_decide (user_id ∈ participants s)
          then s else append_participant user_id s).
Proof.
  intros (l & Hsid & Hl)%session_of_Some. rewrite join_as_alter.
  unfold session_of. simpl. rewrite Hsid. simpl.
  by rewrite lookup_alter_eq, Hl.
Qed.

Lemma create_session_of st sid code lang now1 now2 :
  session_of (create_collaboration_session st sid code lang now1 now2).1 sid
  = Some {| session_id := sid; participants := []; code_content := code;
            language := lang; created_at := now1; last_modified := now2;
            is_active := true |}.
Proof.
  unfold session_of. simpl. rewrite lookup_insert_eq. simpl.
  by rewrite lookup_insert_eq.
Qed.

(** Sessions reached through other identifiers are out of reach of a
    change made to the object of [sid]. *)
Lemma alter_other_session st sid sid' l f :
  wf st → sid' ≠ sid → collaboration_sessions st !! sid = Some l →
  session_of {| collaboration_sessions := collaboration_sessions st;
                heap := alter f l (heap st) |} sid'
  = session_of st sid'.
Proof.
  intros [_ Hinj] Hne Hsid. unfold session_of. simpl.
  destruct (collaboration_sessions st !! sid') as [l'|] eqn:Hsid'; simpl;
    [|done].
  rewrite lookup_alter_ne; [done|]. intros <-. apply Hne. by eapply Hinj.
Qed.

(** X1. Joining a stored session returns the stored session object and
    makes the user a participant: the identifier is appended to the
    participant list unless it is in it already. Nothing else changes: the
    other fields of the session, the dictionary and the other sessions stay
    as they were. *)
Theorem join_adds_participant st sid user_id s :
  wf st →
  session_of st sid = Some s →
  (join_collaboration_session st sid user_id).2
  = collaboration_sessions st !! sid
  ∧ session_of (join_collaboration_session st sid user_id).1 sid
    = Some {| session_id := session_id s;
              participants :=
                if bool_decide (user_id ∈ participants s)
                then participants s else participants s ++ [user_id];
              code_content := code_content s;
              language := language s;
              created_at := created_at s;
              last_modified := last_modified s;
              is_active := is_active s |}
  ∧ (∃ s', session_of (join_collaboration_session st sid user_id).1 sid
           = Some s' ∧ user_id ∈ participants s')
  ∧ collaboration_sessions (join_collaboration_session st sid user_id).1
    = collaboration_sessions st
  ∧ (∀ sid', sid' ≠ sid →
       session_of (join_collaboration_session st sid user_id).1 sid'
       = session_of st sid').
Proof.
  intros Hwf Hs. pose proof Hs as (l & Hsid & Hl)%session_of_Some.
  pose proof (join_session_of st sid user_id s Hs) as Hjoin.
  split; [|split; [|split; [|split]]].
  - by rewrite join_result, Hsid; simpl; rewrite Hl.
  - rewrite Hjoin. f_equal. case_bool_decide; by destruct s.
  - eexists. split; [exact Hjoin|].
    case_bool_decide; [done|]. simpl. apply elem_of_app. right.
    by apply list_elem_of_singleton.
  - by rewrite join_as_alter.
  - intros sid' Hne. rewrite join_as_alter, Hsid.
    by apply (alter_other_session st sid).
Qed.

Lemma join_adds_participant_witness :
  wf Examples.live_store
  ∧ (participants <$> session_of Examples.live_store "s1") = Some ["p1"]
  ∧ (participants <$>
       session_of
         (join_collaboration_session Examples.live_store "s1" "p2").1 "s1")
    = Some ["p1"; "p2"].
Proof.
  pose proof (reachable_wf _ reachable_live_store) as Hwf.
  assert (session_of Examples.live_store "s1"
          = Some {| session_id := "s1"; participants := ["p1"];
                    code_content := "a=1"; language := PYTHON;
                    created_at := 1; last_modified := 2;
                    is_active := true |}) as Hs
    by (vm_compute; reflexivity).
  destruct (join_adds_participant Examples.live_store "s1" "p2" _ Hwf Hs)
    as (_ & Hjoin & _).
  split; [exact Hwf|]. split; [by rewrite Hs|]. by rewrite Hjoin.
Defined.

(** X2. Joining twice is joining once: a second join of the same user
    under the same identifier returns the same session and leaves the store
    as the first join left it. *)
Theorem join_idempotent st sid user_id :
  join_collaboration_session
    (join_collaboration_session st sid user_id).1 sid user_id
  = join_collaboration_session st sid user_id.
Proof.
  destruct (collaboration_sessions st !! sid) as [l|] eqn:Hsid.
  2: { unfold join_collaboration_session. rewrite Hsid. simpl.
       by rewrite Hsid. }
  destruct (heap st !! l) as [s|] eqn:Hl.
  2: { unfold join_collaboration_session. rewrite Hsid, Hl. simpl.
       by rewrite Hsid, Hl. }
  destruct (decide (user_id ∈ participants s)) as [Hin|Hin].
  - assert (join_collaboration_session st sid user_id = (st, Some l)) as ->.
    { unfold join_collaboration_session.
      by rewrite Hsid, Hl, bool_decide_true. }
    simpl. unfold join_collaboration_session.
    by rewrite Hsid, Hl, bool_decide_true.
  - assert (join_collaboration_session st sid user_id
            = ({| collaboration_sessions := collaboration_sessions st;
                  heap := <[l := append_participant user_id s]> (heap st) |},
               Some l)) as ->.
    { unfold join_collaboration_session.
      by rewrite Hsid, Hl, bool_decide_false. }
    simpl. unfold join_collaboration_session. simpl.
    rewrite Hsid, lookup_insert_eq. simpl.
    rewrite bool_decide_true; [done|].
    apply elem_of_app. right. by apply list_elem_of_singleton.
Qed.

Lemma create_other_session st sid sid' code lang now1 now2 :
  wf st → sid' ≠ sid →
  session_of (create_collaboration_session st sid code lang now1 now2).1 sid'
  = session_of st sid'.
Proof.
  intros [Hlive _] Hne. unfold session_of. simpl.
  rewrite lookup_insert_ne by done.
  destruct (collaboration_sessions st !! sid') as [l'|] eqn:Hsid'; simpl;
    [|done].
  rewrite lookup_insert_ne; [done|]. intros <-.
  apply Hlive in Hsid'. rewrite fresh_heap_None in Hsid'. by destruct Hsid'.
Qed.

Lemma session_of_alter st sid l f :
  session_of {| collaboration_sessions := collaboration_sessions st;
                heap := alter f l (heap st) |} sid
  = (if decide (collaboration_sessions st !! sid = Some l)
     then f <$> session_of st sid else session_of st sid).
Proof.
  unfold session_of. simpl.
  destruct (collaboration_sessions st !! sid) as [l'|]; simpl.
  - rewrite lookup_alter.
    destruct (decide (l = l')) as [Heq|Hne],
      (decide (Some l' = Some l)) as [Heq'|Hne']; try done; congruence.
  - by destruct (decide (None = Some l)).
Qed.

Lemma consistent_alter st l f :
  Invariants.consistent st →
  (∀ s, session_id (f s) = session_id s
        ∧ is_active (f s) = is_active s
        ∧ (NoDup (participants s) → NoDup (participants (f s)))) →
  Invariants.consistent
    {| collaboration_sessions := collaboration_sessions st;
       heap := alter f l (heap st) |}.
Proof.
  intros Hst Hf sid s'. rewrite session_of_alter. case_decide; [|apply Hst].
  destruct (session_of st sid) as [s|] eqn:Hs; [|done].
  intros [= <-]. destruct (Hst sid s Hs) as (Hid & Hact & Hnd).
  destruct (Hf s) as (-> & -> & Hnd'). auto.
Qed.

Lemma step_consistent st st' :
  wf st → step st st' → Invariants.consistent st → Invariants.consistent st'.
Proof.
  intros Hwf Hstep Hst.
  destruct Hstep as [st sid code lang n1 n2|st sid u|st sid code u n].
  - intros sid' s'. destruct (decide (sid' = sid)) as [->|Hne].
    + rewrite create_session_of. intros [= <-]. simpl.
      repeat split. apply NoDup_nil_2.
    + rewrite create_other_session by done. apply Hst.
  - rewrite join_as_alter.
    destruct (collaboration_sessions st !! sid) as [l|]; [|by destruct st].
    apply consistent_alter; [done|]. intros s.
    case_bool_decide as Hin; [done|]. simpl. repeat split.
    intros Hnd. apply NoDup_app. repeat split; [done| |apply NoDup_singleton].
    intros x Hx ->%list_elem_of_singleton. done.
  - rewrite update_as_alter.
    destruct (collaboration_sessions st !! sid) as [l|]; [|by destruct st].
    by apply consistent_alter.
Qed.

(** X3. In every store built by the session methods, the session bound to
    an identifier carries that identifier in its own field, is active, and
    lists no participant twice. *)
Theorem reachable_consistent st sid s :
  reachable st →
  session_of st sid = Some s →
  session_id s = sid ∧ is_active s = true ∧ NoDup (participants s).
Proof.
  intros Hreach. revert sid s. change (Invariants.consistent st).
  revert st Hreach. apply (rtc_ind_r (fun st => Invariants.consistent st)).
  - intros sid s. unfold session_of. simpl. by rewrite lookup_empty.
  - intros st st' Hst Hstep IH. eapply step_consistent; [|done..].
    by apply reachable_wf.
Qed.

Lemma reachable_consistent_witness :
  reachable Examples.two_stores
  ∧ (session_id <$> session_of Examples.two_stores "s2") = Some "s2"
  ∧ (is_active <$> session_of Examples.two_stores "s2") = Some true.
Proof.
  assert (session_of Examples.two_stores "s2"
          = Some {| session_id := "s2"; participants := [];
                    code_content := "b=1"; language := JAVA;
                    created_at := 3; last_modified := 4;
                    is_active := true |}) as Hs
    by (vm_compute; reflexivity).
  destruct (reachable_consistent Examples.two_stores "s2" _
              reachable_two_stores Hs) as (Hid & Hact & _).
  split; [apply reachable_two_stores|]. rewrite Hs. simpl.
  split; [exact (f_equal Some Hid)|exact (f_equal Some Hact)].
Defined.

Lemma step_keeps_session st st' sid :
  wf st → step st st' →
  is_Some (session_of st sid) → is_Some (session_of st' sid).
Proof.
  intros Hwf Hstep Hsome.
  destruct Hstep as [st sid0 code lang n1 n2|st sid0 u|st sid0 code u n].
  - destruct (decide (sid = sid0)) as [->|Hne].
    + rewrite create_session_of. eauto.
    + by rewrite create_other_session.
  - rewrite join_as_alter.
    destruct (collaboration_sessions st !! sid0) as [l|]; [|by destruct st].
    rewrite session_of_alter. case_decide; [|done].
    by apply fmap_is_Some.
  - rewrite update_as_alter.
    destruct (collaboration_sessions st !! sid0) as [l|]; [|by destruct st].
    rewrite session_of_alter. case_decide; [|done].
    by apply fmap_is_Some.
Qed.

(** X4. No session method removes a session: an identifier bound in a
    store built by the methods stays bound whatever calls follow. *)
Theorem sessions_never_removed st st' sid :
  reachable st →
  rtc step st st' →
  is_Some (session_of st sid) →
  is_Some (session_of st' sid).
Proof.
  intros Hreach Hsteps. induction Hsteps as [st|st st1 st' Hstep _ IH];
    [done|].
  intros Hsome. apply IH.
  - unfold reachable in *. by eapply rtc_r.
  - eapply step_keeps_session; [|done..]. by apply reachable_wf.
Qed.

Lemma sessions_never_removed_witness :
  reachable Examples.live_store
  ∧ rtc step Examples.live_store Examples.two_stores
  ∧ is_Some (session_of Examples.live_store "s1")
  ∧ is_Some (session_of Examples.two_stores "s1").
Proof.
  assert (rtc step Examples.live_store Examples.two_stores) as Hsteps
    by apply rtc_once, step_create.
  assert (is_Some (session_of Examples.live_store "s1")) as Hsome
    by (vm_compute; eauto).
  split; [apply reachable_live_store|]. split; [exact Hsteps|].
  split; [exact Hsome|].
  exact (sessions_never_removed _ _ "s1" reachable_live_store Hsteps Hsome).
Defined.

(** X5. Last writer wins: two updates of one identifier in a row leave
    the store, and return the value, of the second update alone; nothing of
    the first content or time stamp survives. *)
Theorem update_last_writer_wins st sid code1 user1 now1 code2 user2 now2 :
  update_collaboration_code
    (update_collaboration_code st sid code1 user1 now1).1
    sid code2 user2 now2
  = update_collaboration_code st sid code2 user2 now2.
Proof.
  destruct (collaboration_sessions st !! sid) as [l|] eqn:Hsid.
  2: { unfold update_collaboration_code. rewrite Hsid. simpl.
       by rewrite Hsid. }
  destruct (heap st !! l) as [s|] eqn:Hl.
  2: { unfold update_collaboration_code. rewrite Hsid, Hl. simpl.
       by rewrite Hsid, Hl. }
  unfold update_collaboration_code. rewrite Hsid, Hl. simpl.
  rewrite Hsid, lookup_insert_eq. simpl. by rewrite insert_insert_eq.
Qed.

(** X6. Edits and joins do not interfere: joining under one identifier and
    updating under another (or the same) give the same store in either
    order, and the update returns the same value before and after the
    join. *)
Theorem join_update_commute st sid1 user_id sid2 new_code editor now :
  (update_collaboration_code
     (join_collaboration_session st sid1 user_id).1 sid2 new_code editor now).1
  = (join_collaboration_session
       (update_collaboration_code st sid2 new_code editor now).1
       sid1 user_id).1
  ∧ (update_collaboration_code
       (join_collaboration_session st sid1 user_id).1
       sid2 new_code editor now).2
    = (update_collaboration_code st sid2 new_code editor now).2.
Proof.
  split.
  - rewrite update_as_alter, !join_as_alter, update_as_alter. simpl.
    f_equal.
    destruct (collaboration_sessions st !! sid1) as [l1|],
      (collaboration_sessions st !! sid2) as [l2|]; try done.
    destruct (decide (l1 = l2)) as [->|Hne];
      [|by apply alter_alter_ne, not_eq_sym].
    rewrite !alter_alter_eq. apply alter_ext. intros s _. simpl.
    by case_bool_decide.
  - rewrite !update_result, join_as_alter.
    destruct (collaboration_sessions st !! sid1) as [l1|]; [|by destruct st].
    rewrite session_of_alter. case_decide; [|done].
    apply bool_decide_ext. by rewrite fmap_is_Some.
Qed.

(** X7. A session that is created, joined by two different users and then
    edited holds exactly these two participants in joining order, the
    edited content, the creation time of the create call and the time of
    the edit, whatever store the sequence starts from. *)
Theorem create_join_update st sid code lang now1 now2 user1 user2 new_code
    editor now3 :
  user1 ≠ user2 →
  session_of
    (update_collaboration_code
       (join_collaboration_session
          (join_collaboration_session
             (create_collaboration_session st sid code lang now1 now2).1
             sid user1).1
          sid user2).1
       sid new_code editor now3).1 sid
  = Some {| session_id := sid; participants := [user1; user2];
            code_content := new_code; language := lang;
            created_at := now1; last_modified := now3; is_active := true |}.
Proof.
  intros Hne.
  pose proof (create_session_of st sid code lang now1 now2) as Hcreated.
  pose proof (join_session_of _ sid user1 _ Hcreated) as Hfirst.
  cbn [participants] in Hfirst.
  rewrite bool_decide_false in Hfirst by apply not_elem_of_nil.
  pose proof (join_session_of _ sid user2 _ Hfirst) as Hsecond.
  cbn [participants append_participant app] in Hsecond.
  rewrite bool_decide_false in Hsecond
    by (intros Hin%list_elem_of_singleton; by apply Hne).
  exact (SessionSpec.update_bound_session_of
           _ sid new_code editor now3 _ Hsecond).
Qed.

Lemma create_join_update_witness :
  "p1" ≠ "p2"
  ∧ (code_content <$>
       session_of
         (update_collaboration_code
            (join_collaboration_session
               (join_collaboration_session
                  (create_collaboration_session init "s1" "a=1" PYTHON 1 2).1
                  "s1" "p1").1
               "s1" "p2").1
            "s1" "a=2" "p1" 3).1 "s1") = Some "a=2".
Proof.
  assert ("p1" ≠ "p2") as Hne by discriminate.
  split; [exact Hne|].
  by rewrite (create_join_update init "s1" "a=1" PYTHON 1 2 "p1" "p2" "a=2"
                                 "p1" 3 Hne).
Defined.

(** X8. The session count of the status endpoint is the number of
    identifiers in the dictionary: creating under a new identifier adds
    one, creating under a bound identifier, joining and updating leave it
    as it is; it counts deactivated sessions too and never goes down. *)
Theorem active_sessions_count st sid code lang now1 now2 user_id now :
  Handlers.active_sessions
    (create_collaboration_session st sid code lang now1 now2).1
  = (if decide (is_Some (collaboration_sessions st !! sid))
     then Handlers.active_sessions st
     else S (Handlers.active_sessions st))
  ∧ Handlers.active_sessions (join_collaboration_session st sid user_id).1
    = Handlers.active_sessions st
  ∧ Handlers.active_sessions
      (update_collaboration_code st sid code user_id now).1
    = Handlers.active_sessions st.
Proof.
  unfold Handlers.active_sessions. split; [|split].
  - simpl. rewrite map_size_insert.
    destruct (collaboration_sessions st !! sid) eqn:Hsid; case_decide as Hs;
      try done; exfalso;
      first [by apply Hs; eauto|by destruct Hs as [? [=]]].
  - by rewrite join_as_alter.
  - by rewrite update_as_alter.
Qed.

End SessionExtras.


(** ** Properties of the language tags *)

Module LanguageFacts.
Import Languages.

Lemma LanguageType_of_value lang :
  LanguageType_of (language_value lang) = Some lang.
Proof. by destruct lang. Qed.

Lemma LanguageType_of_Some value lang :
  LanguageType_of value = Some lang → language_value lang = value.
Proof. intros [_ Heq]%find_some. by apply String.eqb_eq. Qed.

(** X9. The language tags round-trip through their values: looking up the
    value of a member gives the member back, and a lookup that succeeds
    returns the one member with that value, so no two members share a
    value. *)
Theorem language_value_round_trip :
  (∀ lang, LanguageType_of (language_value lang) = Some lang)
  ∧ (∀ value lang,
       LanguageType_of value = Some lang ↔ language_value lang = value)
  ∧ (∀ lang1 lang2,
       language_value lang1 = language_value lang2 → lang1 = lang2).
Proof.
  split; [apply LanguageType_of_value|]. split.
  - intros value lang. split.
    + apply LanguageType_of_Some.
    + intros <-. apply LanguageType_of_value.
  - intros lang1 lang2 Heq.
    pose proof (LanguageType_of_value lang1) as H1.
    rewrite Heq, LanguageType_of_value in H1. by injection H1.
Qed.

Lemma find_extension_sound ext entry :
  List.find (fun e : LanguageType * list string => ext_in ext e.2)
            supported_languages = Some entry →
  entry ∈ supported_languages ∧ ext ∈ entry.2.
Proof.
  intros [Hin Hext]%find_some. split; [by apply list_elem_of_In|].
  apply existsb_exists in Hext as (x & Hx & ->%String.eqb_eq).
  by apply list_elem_of_In.
Qed.

Lemma find_extension_complete ext lang exts :
  (lang, exts) ∈ supported_languages → ext ∈ exts →
  ∃ exts', List.find (fun e : LanguageType * list string => ext_in ext e.2)
                     supported_languages = Some (lang, exts').
Proof.
  unfold supported_languages. intros Hentry Hext.
  repeat (apply elem_of_cons in Hentry as [[= -> ->]|Hentry];
          [repeat (apply elem_of_cons in Hext as [->|Hext];
                   [by eexists|]);
           by apply elem_of_nil in Hext|]).
  by apply elem_of_nil in Hentry.
Qed.

(** X10. The language detected for a file is the language whose extension
    list holds the lower-cased suffix of the path, and there is at most one;
    without such a language nothing is detected. Swift, Kotlin, Scala and R
    are never detected. *)
Theorem detect_language_spec suffix file_path :
  (∀ lang,
     detect_language suffix file_path = Some lang
     ↔ ∃ exts, (lang, exts) ∈ supported_languages
               ∧ Str.lower (suffix file_path) ∈ exts)
  ∧ (detect_language suffix file_path = None
     ↔ ∀ lang exts, (lang, exts) ∈ supported_languages →
                    Str.lower (suffix file_path) ∉ exts)
  ∧ (∀ lang, detect_language suffix file_path = Some lang →
             lang ≠ SWIFT ∧ lang ≠ KOTLIN ∧ lang ≠ SCALA ∧ lang ≠ R).
Proof.
  unfold detect_language. set (ext := Str.lower (suffix file_path)).
  assert (∀ lang,
            match List.find
                    (fun e : LanguageType * list string => ext_in ext e.2)
                    supported_languages with
            | Some entry => Some entry.1
            | None => None
            end = Some lang
            ↔ ∃ exts, (lang, exts) ∈ supported_languages ∧ ext ∈ exts)
    as Hiff.
  { intros lang. split.
    - destruct (List.find _ _) as [[lang' exts]|] eqn:Hfind; [|done].
      intros [= <-]. exists exts. by apply find_extension_sound in Hfind.
    - intros (exts & Hentry & Hext).
      by destruct (find_extension_complete ext lang exts Hentry Hext)
        as (exts' & ->). }
  split; [exact Hiff|]. split.
  - split.
    + intros Hnone lang exts Hentry Hext.
      assert (∃ exts, (lang, exts) ∈ supported_languages ∧ ext ∈ exts)
        as Hsome%Hiff by eauto.
      by rewrite Hnone in Hsome.
    + intros Hall.
      destruct (List.find _ _) as [[lang exts]|] eqn:Hfind; [|done].
      apply find_extension_sound in Hfind as [Hentry Hext].
      by destruct (Hall lang exts Hentry).
  - intros lang (exts & Hentry & _)%Hiff. unfold supported_languages in Hentry.
    repeat (apply elem_of_cons in Hentry as [[= -> _]|Hentry]; [done|]).
    by apply elem_of_nil in Hentry.
Qed.

End LanguageFacts.


(** ** Properties of the socket handlers *)

Module HandlerFacts.
Import Sessions Handlers.

(** X11. A code-change event with both fields never raises. For a stored
    session it replaces the content and asks for exactly one [code_updated]
    event carrying the new code, sent to the room of the session without
    the sender. For an unknown session it asks for nothing and leaves the
    store as it was. *)
Theorem handle_code_change_spec st flask_session data now sid new_code :
  data !! "session_id" = Some sid →
  data !! "code" = Some new_code →
  raised (handle_code_change st flask_session data now) = None
  ∧ (∀ s, session_of st sid = Some s →
          session_of (store (handle_code_change st flask_session data now))
                     sid
          = Some (set_code new_code now s)
          ∧ actions (handle_code_change st flask_session data now)
            = [Emit "code_updated"
                    [("session_id", PvStr sid);
                     ("code", PvStr new_code);
                     ("user_id",
                      PvStr (default "anonymous"
                                     (flask_session !! "user_id")))]
                    (Some sid) false])
  ∧ (session_of st sid = None →
     store (handle_code_change st flask_session data now) = st
     ∧ actions (handle_code_change st flask_session data now) = []).
Proof.
  intros Hsid Hcode. unfold handle_code_change. rewrite Hsid, Hcode. simpl.
  split; [done|]. split.
  - intros s Hs. split; [by apply SessionSpec.update_bound_session_of|].
    by destruct (SessionSpec.update_bound
                   st sid new_code
                   (default "anonymous" (flask_session !! "user_id")) now s Hs)
      as (l & _ & _ & ->).
  - intros Hnone. by rewrite SessionSpec.update_unbound.
Qed.

Lemma handle_code_change_spec_witness :
  ({["session_id" := "s1"; "code" := "a=2"]} : gmap string string)
    !! "session_id" = Some "s1"
  ∧ (code_content <$>
       session_of
         (store (handle_code_change
                   Examples.live_store ∅
                   {["session_id" := "s1"; "code" := "a=2"]} 9)) "s1")
    = Some "a=2"
  ∧ actions (handle_code_change
               Examples.live_store ∅
               {["session_id" := "s1"; "code" := "a=2"]} 9)
    = [Emit "code_updated"
            [("session_id", PvStr "s1"); ("code", PvStr "a=2");
             ("user_id", PvStr "anonymous")]
            (Some "s1") false].
Proof.
  assert (({["session_id" := "s1"; "code" := "a=2"]} : gmap string string)
            !! "session_id" = Some "s1") as Hsid by (vm_compute; reflexivity).
  assert (({["session_id" := "s1"; "code" := "a=2"]} : gmap string string)
            !! "code" = Some "a=2") as Hcode by (vm_compute; reflexivity).
  assert (session_of Examples.live_store "s1"
          = Some {| session_id := "s1"; participants := ["p1"];
                    code_content := "a=1"; language := PYTHON;
                    created_at := 1; last_modified := 2;
                    is_active := true |}) as Hs
    by (vm_compute; reflexivity).
  destruct (handle_code_change_spec Examples.live_store ∅ _ 9 "s1" "a=2"
              Hsid Hcode) as (_ & Hbound & _).
  destruct (Hbound _ Hs) as [Hstore Hactions].
  split; [exact Hsid|]. split; [by rewrite Hstore|exact Hactions].
Defined.

(** X12. The join handler never joins anybody. When the identifier is bound
    to a session the call ends in an [AttributeError] (the session object is
    asked for [get] while the default user name is computed) before
    anything is emitted; when it is bound to nothing the only event is
    [session_error]; without the field it ends in a [KeyError]. In every
    case the store is left as it was. *)
Theorem handle_join_session_never_joins st flask_session data :
  store (handle_join_session st flask_session data) = st
  ∧ (∀ a, a ∈ actions (handle_join_session st flask_session data) →
          a = Emit "session_error"
                   [("error", PvStr "Session not found")] None true)
  ∧ (∀ sid, data !! "session_id" = Some sid →
       (is_Some (collaboration_sessions st !! sid) →
        raised (handle_join_session st flask_session data)
        = Some AttributeError
        ∧ actions (handle_join_session st flask_session data) = [])
       ∧ (collaboration_sessions st !! sid = None →
          raised (handle_join_session st flask_session data) = None
          ∧ actions (handle_join_session st flask_session data)
            = [Emit "session_error"
                    [("error", PvStr "Session not found")] None true]))
  ∧ (data !! "session_id" = None →
     raised (handle_join_session st flask_session data)
     = Some (KeyError "session_id")).
Proof.
  unfold handle_join_session, default_user_id.
  destruct (data !! "session_id") as [sid|] eqn:Hdata.
  2: { repeat split; try done. by intros a Ha%elem_of_nil. }
  destruct (collaboration_sessions st !! sid) as [l|] eqn:Hsid.
  - split; [done|]. split; [by intros a Ha%elem_of_nil|]. split; [|done].
    intros sid' [= <-]. rewrite Hsid. split; [done|]. done.
  - unfold join_collaboration_session. rewrite Hsid. simpl.
    split; [done|]. split; [by intros a ->%list_elem_of_singleton|].
    split; [|done].
    intros sid' [= <-]. rewrite Hsid. split; [|done].
    by intros [? [=]].
Qed.

(** X13. A create event with its three fields creates the session when the
    language field is the value of a language tag: the identifier is then
    bound to a new session with the given content, and the handler asks to
    join the room and to confirm with one [session_created] event. With any
    other language text the call ends in a [ValueError] and the store is
    left as it was. *)
Theorem handle_create_session_spec st data now1 now2 sid code value :
  data !! "session_id" = Some sid →
  data !! "code" = Some code →
  data !! "language" = Some value →
  (∀ lang, Languages.language_value lang = value →
     raised (handle_create_session st data now1 now2) = None
     ∧ session_of (store (handle_create_session st data now1 now2)) sid
       = Some {| session_id := sid; participants := [];
                 code_content := code; language := lang;
                 created_at := now1; last_modified := now2;
                 is_active := true |}
     ∧ actions (handle_create_session st data now1 now2)
       = [JoinRoom sid;
          Emit "session_created"
               [("session_id", PvStr sid); ("status", PvStr "success")]
               None true])
  ∧ ((∀ lang, Languages.language_value lang ≠ value) →
     raised (handle_create_session st data now1 now2) = Some ValueError
     ∧ store (handle_create_session st data now1 now2) = st
     ∧ actions (handle_create_session st data now1 now2) = []).
Proof.
  intros Hsid Hcode Hvalue. unfold handle_create_session.
  rewrite Hsid, Hcode, Hvalue. split.
  - intros lang <-. rewrite LanguageFacts.LanguageType_of_value. simpl.
    split; [done|]. split; [|done].
    apply SessionExtras.create_session_of.
  - intros Hnone.
    destruct (Languages.LanguageType_of value) as [lang|] eqn:Hof; [|done].
    apply LanguageFacts.LanguageType_of_Some in Hof.
    by destruct (Hnone lang).
Qed.

Lemma handle_create_session_spec_witness :
  ({["session_id" := "s1"; "code" := "a=1"; "language" := "python"]}
     : gmap string string) !! "language" = Some "python"
  ∧ raised (handle_create_session
              init
              {["session_id" := "s1"; "code" := "a=1";
                "language" := "python"]} 1 2) = None
  ∧ (code_content <$>
       session_of
         (store (handle_create_session
                   init
                   {["session_id" := "s1"; "code" := "a=1";
                     "language" := "python"]} 1 2)) "s1") = Some "a=1".
Proof.
  assert (({["session_id" := "s1"; "code" := "a=1"; "language" := "python"]}
             : gmap string string) !! "session_id" = Some "s1") as Hsid
    by (vm_compute; reflexivity).
  assert (({["session_id" := "s1"; "code" := "a=1"; "language" := "python"]}
             : gmap string string) !! "code" = Some "a=1") as Hcode
    by (vm_compute; reflexivity).
  assert (({["session_id" := "s1"; "code" := "a=1"; "language" := "python"]}
             : gmap string string) !! "language" = Some "python") as Hvalue
    by (vm_compute; reflexivity).
  destruct (handle_create_session_spec init _ 1 2 "s1" "a=1" "python"
              Hsid Hcode Hvalue) as [Hvalid _].
  destruct (Hvalid PYTHON eq_refl) as (Hraised & Hstore & _).
  split; [exact Hvalue|]. split; [exact Hraised|]. by rewrite Hstore.
Defined.

End HandlerFacts.


(** ** Facts about the string primitives *)

Module StrFacts.

Lemma prefix_spec sub s :
  String.prefix sub s = true ↔ ∃ post, s = sub +:+ post.
Proof.
  revert s. induction sub as [|a sub IH]; intros s.
  - split; [intros _; by exists s|by destruct s].
  - destruct s as [|b s]; simpl; [split; [done|by intros [post [=]]]|].
    destruct (ascii_dec a b) as [->|Hne].
    + rewrite IH. split.
      * intros [post ->]. by exists post.
      * intros [post [= ->]]. by exists post.
    + split; [done|]. intros [post [= -> _]]. done.
Qed.

(** The membership test is the substring relation. *)
Lemma contains_spec sub s :
  Str.contains sub s = true ↔ ∃ pre post, s = pre +:+ sub +:+ post.
Proof.
  induction s as [|c s IH]; cbn [Str.contains].
  - rewrite orb_false_r, prefix_spec. split.
    + intros [post ->]. by exists EmptyString, post.
    + intros (pre & post & Heq). destruct pre; [by exists post|done].
  - rewrite orb_true_iff, prefix_spec, IH. split.
    + intros [[post ->]|(pre & post & ->)].
      * by exists EmptyString, post.
      * by exists (String c pre), post.
    + intros (pre & post & Heq). destruct pre as [|c' pre].
      * left. by exists post.
      * right. injection Heq as -> ->. by exists pre, post.
Qed.

Lemma append_cons x (a b : string) : String x a +:+ b = String x (a +:+ b).
Proof. reflexivity. Qed.

Lemma append_assoc (a b c : string) : (a +:+ b) +:+ c = a +:+ (b +:+ c).
Proof.
  induction a as [|x a IH]; [done|]. by rewrite !append_cons, IH.
Qed.

Lemma append_nil_r (a : string) : a +:+ EmptyString = a.
Proof. induction a as [|x a IH]; [done|]. by rewrite append_cons, IH. Qed.

Lemma contains_refl s : Str.contains s s = true.
Proof.
  apply contains_spec. exists EmptyString, EmptyString. simpl.
  by rewrite append_nil_r.
Qed.

Lemma contains_append_r sub a b :
  Str.contains sub b = true → Str.contains sub (a +:+ b) = true.
Proof.
  rewrite !contains_spec. intros (pre & post & ->).
  exists (a +:+ pre), post. by rewrite append_assoc.
Qed.

Lemma contains_append_l sub a b :
  Str.contains sub a = true → Str.contains sub (a +:+ b) = true.
Proof.
  rewrite !contains_spec. intros (pre & post & ->).
  exists pre, (post +:+ b). by rewrite !append_assoc.
Qed.

Lemma contains_trans a b c :
  Str.contains a b = true → Str.contains b c = true →
  Str.contains a c = true.
Proof.
  rewrite !contains_spec. intros (p1 & q1 & ->) (p2 & q2 & ->).
  exists (p2 +:+ p1), (q1 +:+ q2). by rewrite !append_assoc.
Qed.

(** Every element of a joined list occurs in the joined text. *)
Lemma contains_join sep x (l : list string) :
  x ∈ l → Str.contains x (Str.join sep l) = true.
Proof.
  unfold Str.join. induction l as [|y l IH]; [by intros ?%elem_of_nil|].
  intros [->|Hin]%elem_of_cons.
  - destruct l as [|z l]; [apply contains_refl|].
    cbn [String.concat]. apply contains_append_l, contains_refl.
  - destruct l as [|z l]; [by apply elem_of_nil in Hin|].
    cbn [String.concat]. by apply contains_append_r, contains_append_r, IH.
Qed.

Lemma lower_append a b : Str.lower (a +:+ b) = Str.lower a +:+ Str.lower b.
Proof.
  induction a as [|x a IH]; [done|].
  rewrite append_cons. cbn [Str.lower]. by rewrite append_cons, IH.
Qed.

End StrFacts.


(** ** Further properties of [app.py] *)

Module AppExtras.
Import App AppDemo.

Lemma detect_bugs_returns request now src :
  code request = Some src → src ≠ EmptyString →
  ∃ response,
    detect_bugs request now = Returns response
    ∧ result response
      = match bugs_found (language request) src with
        | _ :: _ =>
            "Potential issues found:" +:+ nl
              +:+ Str.join nl
                    (map (fun bug => "- " +:+ bug)
                         (bugs_found (language request) src))
        | [] => "No obvious issues detected. Code looks good!"
        end
    ∧ length (suggestions response) = 3
    ∧ confidence response = 7 # 10
    ∧ r_task_type response = task_type request
    ∧ r_language response = language request
    ∧ timestamp response = now.
Proof.
  intros Hcode Hsrc. unfold detect_bugs. rewrite Hcode.
  destruct src as [|c src]; [done|].
  destruct (bugs_found (language request) (String c src)); eexists;
    (split; [reflexivity|]); repeat split.
Qed.

(** X14. Bug detection raises [ValueError] exactly when the request has no
    code or empty code. For any other request it returns a response with
    three suggestions, confidence 0.7, the task type and language of the
    request and the time of the call. *)
Theorem detect_bugs_requires_code request now :
  (∀ msg, detect_bugs request now = ValueError msg
          ↔ (code request = None ∨ code request = Some EmptyString)
            ∧ msg = "Code is required for bug detection")
  ∧ (∀ src, code request = Some src → src ≠ EmptyString →
       ∃ response,
         detect_bugs request now = Returns response
         ∧ length (suggestions response) = 3
         ∧ confidence response = 7 # 10
         ∧ r_task_type response = task_type request
         ∧ r_language response = language request
         ∧ timestamp response = now).
Proof.
  split.
  - intros msg. destruct (code request) as [[|c src]|] eqn:Hcode.
    + unfold detect_bugs. rewrite Hcode. split.
      * intros [= <-]. eauto.
      * by intros [_ ->].
    + destruct (detect_bugs_returns request now (String c src) Hcode)
        as (response & -> & _); [done|].
      split; [done|]. by intros [[[=]|[=]] _].
    + unfold detect_bugs. rewrite Hcode. split.
      * intros [= <-]. eauto.
      * by intros [_ ->].
  - intros src Hcode Hsrc.
    destruct (detect_bugs_returns request now src Hcode Hsrc)
      as (response & Hret & _ & Hrest).
    by exists response.
Qed.

(** X15. Only Python and JavaScript code is scanned: for a request in any
    other language (letter case aside) the report is the no-issues text,
    whatever the code contains. *)
Theorem detect_bugs_other_language request now src :
  Str.lower (language request) ≠ "python" →
  Str.lower (language request) ≠ "javascript" →
  code request = Some src →
  src ≠ EmptyString →
  bugs_found (language request) src = []
  ∧ ∃ response,
      detect_bugs request now = Returns response
      ∧ result response = "No obvious issues detected. Code looks good!".
Proof.
  intros Hpy Hjs Hcode Hsrc.
  assert (bugs_found (language request) src = []) as Hnone.
  { unfold bugs_found.
    by rewrite (proj2 (String.eqb_neq _ _) Hpy),
      (proj2 (String.eqb_neq _ _) Hjs). }
  split; [exact Hnone|].
  destruct (detect_bugs_returns request now src Hcode Hsrc)
    as (response & Hret & Hresult & _).
  exists response. split; [exact Hret|]. by rewrite Hresult, Hnone.
Qed.

Lemma detect_bugs_other_language_witness :
  Str.lower "Java" ≠ "python"
  ∧ ∃ response,
      detect_bugs {| task_type := BUG_DETECTION; language := "Java";
                     prompt := "Find bugs";
                     code := Some "try { eval(x); } catch (e) {}";
                     context := None |} 0 = Returns response
      ∧ result response = "No obvious issues detected. Code looks good!".
Proof.
  assert (Str.lower "Java" ≠ "python") as Hpy by (vm_compute; discriminate).
  assert (Str.lower "Java" ≠ "javascript") as Hjs
    by (vm_compute; discriminate).
  split; [exact Hpy|].
  apply (detect_bugs_other_language
           {| task_type := BUG_DETECTION; language := "Java";
              prompt := "Find bugs";
              code := Some "try { eval(x); } catch (e) {}";
              context := None |} 0 "try { eval(x); } catch (e) {}");
    [exact Hpy|exact Hjs|reflexivity|discriminate].
Defined.

(** X16. For JavaScript the strict-equality warning is given exactly when
    the code contains [==] and contains no [===] anywhere: one strict
    comparison silences the warning for every loose one. *)
Theorem javascript_strict_equality lang src :
  Str.lower lang = "javascript" →
  ("Use === instead of == for strict equality" ∈ bugs_found lang src
   ↔ Str.contains "==" src = true ∧ Str.contains "===" src = false)
  ∧ (Str.contains "===" src = true →
     "Use === instead of == for strict equality" ∉ bugs_found lang src).
Proof.
  intros Hlang.
  assert ("Use === instead of == for strict equality" ∈ bugs_found lang src
          ↔ Str.contains "==" src = true ∧ Str.contains "===" src = false)
    as Hiff.
  { unfold bugs_found, javascript_bugs. rewrite Hlang. simpl.
    destruct (Str.contains "==" src), (Str.contains "===" src),
      (Str.contains "var " src); simpl;
      rewrite ?elem_of_cons, ?elem_of_nil; split;
      try (intros [? ?]; discriminate); try tauto;
      intros [Heq|[]]; discriminate Heq. }
  split; [exact Hiff|].
  intros Hstrict [_ Hno]%Hiff. by rewrite Hstrict in Hno.
Qed.

Lemma javascript_strict_equality_witness :
  Str.lower "JavaScript" = "javascript"
  ∧ Str.contains "===" "if (a == 1 && b === 2) {}" = true
  ∧ "Use === instead of == for strict equality"
      ∉ bugs_found "JavaScript" "if (a == 1 && b === 2) {}".
Proof.
  assert (Str.lower "JavaScript" = "javascript") as Hlang
    by (vm_compute; reflexivity).
  assert (Str.contains "===" "if (a == 1 && b === 2) {}" = true) as Hstrict
    by (vm_compute; reflexivity).
  split; [exact Hlang|]. split; [exact Hstrict|].
  exact (proj2 (javascript_strict_equality
                  "JavaScript" "if (a == 1 && b === 2) {}" Hlang) Hstrict).
Defined.

Lemma bugs_found_length lang src : length (bugs_found lang src) ≤ 3.
Proof.
  unfold bugs_found, python_bugs, javascript_bugs.
  destruct (String.eqb_spec (Str.lower lang) "python") as [->|_];
    [simpl|destruct (String.eqb (Str.lower lang) "javascript")];
    repeat match goal with
           | |- context [if ?b then _ else _] => destruct b
           end; simpl; lia.
Qed.

(** X17. The report names everything that was found: every message of the
    scan occurs in the returned text, at most three messages are found, and
    the text is the no-issues text exactly when the scan found nothing. *)
Theorem detect_bugs_reports_all request now src response :
  code request = Some src →
  detect_bugs request now = Returns response →
  (∀ bug, bug ∈ bugs_found (language request) src →
          Str.contains bug (result response) = true)
  ∧ length (bugs_found (language request) src) ≤ 3
  ∧ (bugs_found (language request) src = []
     ↔ result response = "No obvious issues detected. Code looks good!").
Proof.
  intros Hcode Hret.
  assert (src ≠ EmptyString) as Hsrc.
  { intros ->. unfold detect_bugs in Hret. by rewrite Hcode in Hret. }
  destruct (detect_bugs_returns request now src Hcode Hsrc)
    as (response' & Hret' & Hresult & _).
  rewrite Hret in Hret'. injection Hret' as <-.
  split; [|split; [apply bugs_found_length|]].
  - intros bug Hbug. rewrite Hresult.
    destruct (bugs_found (language request) src) as [|b bugs] eqn:Hbugs;
      [by apply elem_of_nil in Hbug|].
    apply StrFacts.contains_append_r, StrFacts.contains_append_r.
    apply (StrFacts.contains_trans _ ("- " +:+ bug)).
    + apply StrFacts.contains_append_r, StrFacts.contains_refl.
    + apply StrFacts.contains_join, list_elem_of_In, in_map.
      by apply list_elem_of_In.
  - rewrite Hresult.
    destruct (bugs_found (language request) src) as [|b bugs]; [done|].
    split; [done|]. intros [=].
Qed.

Lemma detect_bugs_reports_all_witness :
  ∃ response,
    detect_bugs {| task_type := BUG_DETECTION; language := "python";
                   prompt := "Find bugs";
                   code := Some "x = eval(input())";
                   context := None |} 0 = Returns response
    ∧ Str.contains "Use of eval() detected - potential security risk"
                   (result response) = true.
Proof.
  eexists. split; [vm_compute; reflexivity|].
  eapply (detect_bugs_reports_all
            {| task_type := BUG_DETECTION; language := "python";
               prompt := "Find bugs"; code := Some "x = eval(input())";
               context := None |} 0 "x = eval(input())");
    [reflexivity|vm_compute; reflexivity|].
  vm_compute. apply elem_of_cons. by left.
Defined.

(** X18. Code completion never raises. Without the API, without code, or
    when the API call fails, the result is the code of the request (the text
    None when there is none) followed by the two demo comment lines, with
    confidence 0.5 and the single demo suggestion; so the result starts
    with the code that was sent. Otherwise the result is what the API
    returned, with confidence 0.85. *)
Theorem complete_code_demo ai_enabled openai request now :
  (ai_enabled = false
   ∨ code request = None
   ∨ code request = Some EmptyString
   ∨ openai request = None →
   result (complete_code ai_enabled openai request now)
   = str_of_code (code request) +:+ nl +:+ nl
       +:+ "// Code completion demo" +:+ nl
       +:+ "// Configure OpenAI API for intelligent code completion"
   ∧ String.prefix (str_of_code (code request))
                   (result (complete_code ai_enabled openai request now))
     = true
   ∧ confidence (complete_code ai_enabled openai request now) = 5 # 10
   ∧ length (suggestions (complete_code ai_enabled openai request now)) = 1)
  ∧ (∀ src content,
       ai_enabled = true → code request = Some src → src ≠ EmptyString →
       openai request = Some content →
       result (complete_code ai_enabled openai request now) = content
       ∧ confidence (complete_code ai_enabled openai request now)
         = 85 # 100).
Proof.
  split.
  - intros Hdemo.
    assert (complete_code ai_enabled openai request now
            = {| r_task_type := task_type request;
                 r_language := language request;
                 result := _generate_demo_completion request;
                 suggestions :=
                   ["This is a demo response. Configure OpenAI API for full functionality."];
                 confidence := 5 # 10;
                 timestamp := now |}) as ->.
    { unfold complete_code.
      destruct Hdemo as [->|[->|[->|Hfail]]]; simpl; try done.
      - by rewrite andb_false_r.
      - by rewrite andb_false_r.
      - rewrite Hfail. by destruct (_ && _). }
    simpl. repeat split. apply StrFacts.prefix_spec. by eexists.
  - intros src content -> Hcode Hsrc Hcontent. unfold complete_code.
    rewrite Hcode, Hcontent. simpl. by destruct src.
Qed.

Lemma complete_code_demo_witness :
  result (complete_code false (fun _ => None)
            {| task_type := CODE_COMPLETION; language := "python";
               prompt := "Complete this function";
               code := Some "def calculate_sum(a, b):";
               context := None |} 0)
  = "def calculate_sum(a, b):" +:+ nl +:+ nl
      +:+ "// Code completion demo" +:+ nl
      +:+ "// Configure OpenAI API for intelligent code completion".
Proof.
  exact (proj1 (proj1 (complete_code_demo
                         false (fun _ => None)
                         {| task_type := CODE_COMPLETION;
                            language := "python";
                            prompt := "Complete this function";
                            code := Some "def calculate_sum(a, b):";
                            context := None |} 0)
                      (or_introl eq_refl))).
Defined.

End AppExtras.


(** ** Further properties of the analyzers *)

Module AnalyzerExtras.
Import Analyzer AnalyzerFacts.

(** *** Letter case and the keyword count *)

Lemma lower_char_newline c :
  Ascii.eqb (Str.lower_char c) Str.newline = Ascii.eqb c Str.newline.
Proof. destruct c as [[] [] [] [] [] [] [] []]; reflexivity. Qed.

Lemma lower_char_isspace c : Str.isspace (Str.lower_char c) = Str.isspace c.
Proof. destruct c as [[] [] [] [] [] [] [] []]; reflexivity. Qed.

Lemma split_lower s :
  Str.split Str.newline (Str.lower s) = map Str.lower (Str.split Str.newline s).
Proof.
  induction s as [|c s IH]; [done|].
  cbn [Str.lower Str.split]. rewrite lower_char_newline, IH.
  destruct (Ascii.eqb c Str.newline); [done|].
  by destruct (Str.split Str.newline s).
Qed.

Lemma has_ink_lower s : Str.has_ink (Str.lower s) = Str.has_ink s.
Proof.
  unfold Str.has_ink. induction s as [|c s IH]; [done|].
  cbn [Str.lower list_ascii_of_string existsb].
  by rewrite lower_char_isspace, IH.
Qed.

Lemma filter_map_comm {A B} (f : B → bool) (g : A → B) (l : list A) :
  List.filter f (map g l) = map g (List.filter (fun x => f (g x)) l).
Proof.
  induction l as [|x l IH]; simpl; [done|].
  destruct (f (g x)); simpl; by rewrite IH.
Qed.

Lemma non_empty_lines_lower code :
  non_empty_lines (Str.lower code) = map Str.lower (non_empty_lines code).
Proof.
  rewrite !non_empty_lines_ink, split_lower, filter_map_comm. f_equal.
  apply List.filter_ext. intros line. apply has_ink_lower.
Qed.

Lemma indicators_in_lower line :
  indicators_in (Str.lower line) = indicators_in line.
Proof. unfold indicators_in. by rewrite lower_idempotent. Qed.

Lemma complexity_count_lower code :
  complexity_count (Str.lower code) = complexity_count code.
Proof.
  unfold complexity_count. rewrite non_empty_lines_lower. f_equal.
  induction (non_empty_lines code) as [|line lines IH]; simpl; [done|].
  by rewrite indicators_in_lower, IH.
Qed.

(** X19. The complexity heuristic ignores letter case: two texts that
    differ in the case of letters only get the same result, so [IF] and
    [While] count like [if] and [while]. *)
Theorem basic_complexity_ignores_case code code' lang now :
  Str.lower code = Str.lower code' →
  _basic_complexity_analysis code lang now
  = _basic_complexity_analysis code' lang now.
Proof.
  intros Hlow.
  assert (∀ text, _basic_complexity_analysis text lang now
                  = _basic_complexity_analysis (Str.lower text) lang now)
    as Hnorm.
  { intros text. unfold _basic_complexity_analysis.
    by rewrite complexity_count_lower, non_empty_lines_lower, length_map. }
  by rewrite (Hnorm code), (Hnorm code'), Hlow.
Qed.

Lemma basic_complexity_ignores_case_witness :
  Str.lower "IF (a) WHILE (b) c();" = Str.lower "if (A) while (B) C();"
  ∧ score (_basic_complexity_analysis "IF (a) WHILE (b) c();" JAVA 0)
    = score (_basic_complexity_analysis "if (A) while (B) C();" JAVA 0).
Proof.
  assert (Str.lower "IF (a) WHILE (b) c();" = Str.lower "if (A) while (B) C();")
    as Hlow by (vm_compute; reflexivity).
  split; [exact Hlow|].
  by rewrite (basic_complexity_ignores_case _ _ JAVA 0 Hlow).
Defined.

(** *** Bounds on the keyword count *)

Lemma indicators_in_length line : length (indicators_in line) ≤ 8.
Proof.
  unfold indicators_in.
  etrans; [apply List.filter_length_le|]. done.
Qed.

Lemma filter_length_le_sum {A} (f : A → bool) (g : A → nat) (l : list A) :
  (∀ x, f x = true → 1 ≤ g x) →
  length (List.filter f l) ≤ list_sum (map g l).
Proof.
  intros Hfg. induction l as [|x l IH]; simpl; [done|].
  destruct (f x) eqn:Hx; simpl; [|lia]. specialize (Hfg x Hx). lia.
Qed.

Lemma count_le_lines (lines : list string) :
  length (flat_map indicators_in lines) ≤ 8 * length lines.
Proof.
  induction lines as [|line lines IH]; [done|].
  cbn [flat_map length]. rewrite length_app.
  pose proof (indicators_in_length line). lia.
Qed.

Lemma count_le_occurrences (lines : list string) :
  length (flat_map indicators_in lines)
  ≤ list_sum
      (map (fun line =>
              list_sum (map (fun keyword =>
                               Str.occurrences keyword (Str.lower line))
                            complexity_indicators))
           lines).
Proof.
  induction lines as [|line lines IH]; [done|].
  assert (∀ x l, list_sum (x :: l) = x + list_sum l) as Hcons by done.
  cbn [flat_map]. rewrite length_app, map_cons, Hcons.
  assert (length (indicators_in line)
          ≤ list_sum (map (fun keyword =>
                             Str.occurrences keyword (Str.lower line))
                          complexity_indicators)) as Hline.
  { apply filter_length_le_sum. intros keyword Hin.
    rewrite contains_occurrences in Hin. by apply Nat.ltb_lt in Hin. }
  lia.
Qed.

(** X20. The keyword count is at most eight per non-blank line and at most
    the number of keyword occurrences; text without a non-blank line scores
    100, and a suggestion is only made for text of two or more non-blank
    lines. *)
Theorem complexity_count_bounds code lang now :
  complexity_count code ≤ 8 * length (non_empty_lines code)
  ∧ complexity_count code ≤ keyword_occurrences code
  ∧ (non_empty_lines code = [] →
     score (_basic_complexity_analysis code lang now) = 100%Q)
  ∧ (suggestions (_basic_complexity_analysis code lang now) ≠ [] →
     2 ≤ length (non_empty_lines code)).
Proof.
  pose proof (count_le_lines (non_empty_lines code)) as Hlines.
  split; [exact Hlines|]. split; [apply count_le_occurrences|]. split.
  - intros Hnone. unfold _basic_complexity_analysis, complexity_count.
    by rewrite Hnone.
  - unfold _basic_complexity_analysis. cbn [suggestions].
    fold (complexity_count code) in Hlines.
    destruct (Nat.ltb_spec 10 (complexity_count code)); [lia|done].
Qed.

(** *** Order of the style issues *)

Lemma enumerate_filter_sorted {A} (f : nat * A → bool) (start : nat)
    (l : list A) :
  StronglySorted lt (map fst (List.filter f (enumerate start l)))
  ∧ Forall (fun n => start ≤ n < start + length l)
           (map fst (List.filter f (enumerate start l))).
Proof.
  unfold enumerate. revert start.
  induction l as [|x l IH]; intros start; simpl.
  - split; constructor.
  - destruct (IH (S start)) as [Hsorted Hrange].
    assert (Forall (fun n => start ≤ n < start + S (length l))
              (map fst (List.filter f (zip (seq (S start) (length l)) l))))
      as Hrange'.
    { eapply Forall_impl; [exact Hrange|]. simpl. intros n Hn. lia. }
    destruct (f (start, x)); simpl; [|done].
    split.
    + constructor; [done|].
      eapply Forall_impl; [exact Hrange|]. simpl. intros n Hn. lia.
    + constructor; [lia|done].
Qed.

(** X21. The style heuristic reports long lines in the order of the text:
    the line numbers of its issues are strictly increasing and lie between
    1 and the number of lines; there is one suggestion per issue; text
    without a line over 120 characters gets no issue and the score 100. *)
Theorem style_issues_in_line_order code lang now :
  issues (_basic_style_analysis code lang now)
  = map (fun il : nat * string =>
           [("type", PyStr "line_too_long"); ("line", pyint il.1);
            ("length", pyint (String.length il.2));
            ("severity", PyStr "low")])
        (long_lines code)
  ∧ StronglySorted lt (map fst (long_lines code))
  ∧ Forall (fun n => 1 ≤ n ≤ length (Str.split Str.newline code))
           (map fst (long_lines code))
  ∧ length (suggestions (_basic_style_analysis code lang now))
    = length (issues (_basic_style_analysis code lang now))
  ∧ (Forall (fun line => String.length line ≤ 120)
            (Str.split Str.newline code) →
     issues (_basic_style_analysis code lang now) = []
     ∧ score (_basic_style_analysis code lang now) = 100%Q).
Proof.
  destruct (enumerate_filter_sorted
              (fun il : nat * string => (120 <? String.length il.2)%nat)
              1 (Str.split Str.newline code)) as [Hsorted Hrange].
  split; [done|]. split; [exact Hsorted|]. split; [|split].
  - eapply Forall_impl; [exact Hrange|]. simpl. intros n Hn. lia.
  - simpl. by rewrite !length_map.
  - intros Hshort.
    assert (long_lines code = []) as Hnone.
    { unfold long_lines.
      assert (length (List.filter
                        (fun il : nat * string =>
                           (120 <? String.length il.2)%nat)
                        (enumerate 1 (Str.split Str.newline code))) = 0)
        as Hlen.
      { rewrite (enumerate_filter_length
                   (fun line => (120 <? String.length line)%nat)).
        rewrite filter_none; [done|].
        intros j line Hj. apply Nat.ltb_ge.
        by eapply (Forall_lookup_1 _ _ _ _ Hshort). }
      by apply nil_length_inv. }
    unfold _basic_style_analysis. simpl. by rewrite Hnone.
Qed.

(** *** Overlapping patterns of the security heuristic *)

Lemma filter_length_two {A} (f : A → bool) (l1 l2 l3 : list A) x y :
  f x = true → f y = true →
  2 ≤ length (List.filter f (l1 ++ x :: l2 ++ y :: l3)).
Proof.
  intros Hx Hy. rewrite List.filter_app, length_app. simpl. rewrite Hx.
  simpl. rewrite List.filter_app, length_app. simpl. rewrite Hy. simpl. lia.
Qed.

(** X22. The security heuristic reports at most fourteen issues, with one
    suggestion each. Its patterns overlap: text that contains [shell_exec]
    (in any letter case) also matches [exec], so it gets at least two
    issues and a score of at most 80. *)
Theorem security_patterns_overlap code lang now :
  length (issues (_basic_security_analysis code lang now)) ≤ 14
  ∧ length (suggestions (_basic_security_analysis code lang now))
    = length (issues (_basic_security_analysis code lang now))
  ∧ (Str.contains "shell_exec" (Str.lower code) = true →
     2 ≤ length (issues (_basic_security_analysis code lang now))
     ∧ (score (_basic_security_analysis code lang now) <= 80)%Q).
Proof.
  unfold _basic_security_analysis. cbn [issues suggestions score].
  rewrite !length_map, security_matches_table.
  split; [|split; [done|]].
  - etrans; [apply List.filter_length_le|]. done.
  - intros Hshell.
    assert (2 ≤ length (List.filter
                          (fun m : string * string => pattern_found code m.2)
                          pattern_table)) as Htwo.
    { apply (filter_length_two
               _ (firstn 11 pattern_table) [("unsafe_functions", "system")] []
               ("unsafe_functions", "exec")
               ("unsafe_functions", "shell_exec")).
      - unfold pattern_found. simpl.
        eapply StrFacts.contains_trans; [|exact Hshell]. reflexivity.
      - exact Hshell. }
    split; [exact Htwo|].
    unfold clamp_score.
    change (inject_Z
              (Z.max 0
                 (100 - Z.of_nat
                          (length
                             (List.filter
                                (fun m : string * string =>
                                   pattern_found code m.2)
                                pattern_table)) * 10))
            <= inject_Z 80)%Q.
    rewrite <- Zle_Qle. lia.
Qed.

Lemma security_patterns_overlap_witness :
  Str.contains "shell_exec" (Str.lower "$out = Shell_Exec($cmd);") = true
  ∧ 2 ≤ length (issues (_basic_security_analysis
                          "$out = Shell_Exec($cmd);" PHP 0)).
Proof.
  assert (Str.contains "shell_exec" (Str.lower "$out = Shell_Exec($cmd);")
          = true) as Hshell by (vm_compute; reflexivity).
  split; [exact Hshell|].
  exact (proj1 (proj2 (proj2 (security_patterns_overlap
                                "$out = Shell_Exec($cmd);" PHP 0))
                      Hshell)).
Defined.

(** *** The radon path of the complexity analyzer *)

Lemma complexity_sum_le (blocks : list Block) :
  Forall (fun block => complexity block ≤ 10) blocks →
  list_sum (map complexity blocks) ≤ 10 * length blocks.
Proof.
  induction 1 as [|block blocks Hblock _ IH]; [done|].
  rewrite map_cons. change (list_sum (?x :: ?l)) with (x + list_sum l).
  simpl length. lia.
Qed.

Lemma avg_complexity_le (blocks : list Block) :
  Forall (fun block => complexity block ≤ 10) blocks →
  (avg_complexity blocks <= 10)%Q.
Proof.
  intros Hall. pose proof (complexity_sum_le blocks Hall) as Hsum.
  destruct blocks as [|block blocks]; [done|].
  unfold avg_complexity. apply Qle_shift_div_r.
  - change (inject_Z 0 < inject_Z (Z.of_nat (length (block :: blocks))))%Q.
    rewrite <- Zlt_Qlt. simpl length. lia.
  - change 10%Q with (inject_Z 10).
    rewrite <- inject_Z_mult, <- Zle_Qle. lia.
Qed.

(** X23. For Python code that radon analyzes, the complexity issues are the
    blocks of complexity above 10, in radon's order, with one suggestion
    each. When no block exceeds 10 there is no issue and the score is at
    least 50; without any block the score is 100. *)
Theorem radon_complexity_path tools code now parsed blocks raw :
  ast_parse tools code = Some parsed →
  radon_blocks tools code = Some blocks →
  radon_analyze tools code = Some raw →
  issues (analyze_complexity tools code PYTHON now)
  = map complexity_issue
        (List.filter (fun block => (10 <? complexity block)%nat) blocks)
  ∧ length (suggestions (analyze_complexity tools code PYTHON now))
    = length (issues (analyze_complexity tools code PYTHON now))
  ∧ (Forall (fun block => complexity block ≤ 10) blocks →
     issues (analyze_complexity tools code PYTHON now) = []
     ∧ (50 <= score (analyze_complexity tools code PYTHON now))%Q)
  ∧ (blocks = [] →
     (score (analyze_complexity tools code PYTHON now) == 100)%Q).
Proof.
  intros Hast Hblocks Hraw. unfold analyze_complexity.
  case_decide; [done|]. rewrite Hast, Hblocks, Hraw.
  cbn [issues suggestions score].
  split; [done|]. split; [by rewrite !length_map|]. split.
  - intros Hall. split.
    + rewrite filter_none; [done|]. intros j block Hj. apply Nat.ltb_ge.
      by eapply (Forall_lookup_1 _ _ _ _ Hall).
    + pose proof (avg_complexity_le blocks Hall) as Havg.
      apply (Qle_trans _ (100 - avg_complexity blocks * 5));
        [lra|apply Q.le_max_r].
  - intros ->. reflexivity.
Qed.

Lemma radon_complexity_path_witness :
  issues (analyze_complexity
            {| ast_parse := fun _ => Some ();
               radon_blocks := fun _ =>
                 Some [{| lineno := 1; name := "f"; complexity := 3 |};
                       {| lineno := 9; name := "g"; complexity := 17 |}];
               radon_analyze := fun _ =>
                 Some {| loc := 20; lloc := 18; sloc := 18;
                         comments := 0; multi := 0; blank := 2 |};
               bandit_run := fun _ => None;
               pylint_run := fun _ => None |}
            "def f(): pass" PYTHON 0)
  = [[("type", PyStr "high_complexity"); ("line", PyInt 9);
      ("function", PyStr "g"); ("complexity", PyInt 17);
      ("severity", PyStr "high")]].
Proof.
  rewrite (proj1 (radon_complexity_path
                    {| ast_parse := fun _ => Some ();
                       radon_blocks := fun _ =>
                         Some [{| lineno := 1; name := "f";
                                  complexity := 3 |};
                               {| lineno := 9; name := "g";
                                  complexity := 17 |}];
                       radon_analyze := fun _ =>
                         Some {| loc := 20; lloc := 18; sloc := 18;
                                 comments := 0; multi := 0; blank := 2 |};
                       bandit_run := fun _ => None;
                       pylint_run := fun _ => None |}
                    "def f(): pass" 0 () _ _ eq_refl eq_refl eq_refl)).
  reflexivity.
Defined.

(** *** The bandit path of the security analyzer *)

Lemma severity_count_none level (found : list BanditIssue) :
  Forall (fun issue => severity issue ≠ level) found →
  severity_count level found = 0.
Proof.
  unfold severity_count. induction 1 as [|issue found Hne _ IH]; [done|].
  simpl. by rewrite (proj2 (String.eqb_neq _ _) Hne).
Qed.

Lemma severity_counts_le (found : list BanditIssue) :
  severity_count "HIGH" found + severity_count "MEDIUM" found
  + severity_count "LOW" found ≤ length found.
Proof.
  unfold severity_count. induction found as [|issue found IH]; [done|].
  cbn [List.filter].
  destruct (String.eqb_spec (severity issue) "HIGH") as [->|_];
    [simpl; lia|].
  destruct (String.eqb_spec (severity issue) "MEDIUM") as [->|_];
    [simpl; lia|].
  destruct (String.eqb (severity issue) "LOW"); simpl; lia.
Qed.

(** X24. For Python code that bandit scans, every finding becomes an issue
    and costs at most 20 points, so the score is at least
    100 - 20 * findings. Only the severities HIGH, MEDIUM and LOW count:
    findings of any other severity are listed and leave the score at
    100. *)
Theorem bandit_security_path tools code now found :
  bandit_run tools code = Some found →
  length (issues (analyze_security tools code PYTHON now)) = length found
  ∧ (inject_Z (100 - 20 * Z.of_nat (length found))
     <= score (analyze_security tools code PYTHON now))%Q
  ∧ (Forall (fun issue => severity issue ≠ "HIGH"
                          ∧ severity issue ≠ "MEDIUM"
                          ∧ severity issue ≠ "LOW") found →
     score (analyze_security tools code PYTHON now) = 100%Q).
Proof.
  intros Hrun. unfold analyze_security. case_decide; [done|].
  rewrite Hrun. cbn [issues score]. split; [by rewrite length_map|]. split.
  - pose proof (severity_counts_le found) as Hle.
    unfold clamp_score. rewrite <- Zle_Qle. lia.
  - intros Hother.
    rewrite !severity_count_none; [done|..];
      (eapply Forall_impl; [exact Hother|]); simpl; tauto.
Qed.

Lemma bandit_security_path_witness :
  score (analyze_security
           {| ast_parse := fun _ => None;
              radon_blocks := fun _ => None;
              radon_analyze := fun _ => None;
              bandit_run := fun _ =>
                Some [{| b_lineno := 3; test_id := "T1";
                         severity := "UNDEFINED"; confidence := "HIGH";
                         text := "a finding" |}];
              pylint_run := fun _ => None |}
           Examples.bare_except PYTHON 0) = 100%Q.
Proof.
  apply (proj2 (proj2 (bandit_security_path
                         {| ast_parse := fun _ => None;
                            radon_blocks := fun _ => None;
                            radon_analyze := fun _ => None;
                            bandit_run := fun _ =>
                              Some [{| b_lineno := 3; test_id := "T1";
                                       severity := "UNDEFINED";
                                       confidence := "HIGH";
                                       text := "a finding" |}];
                            pylint_run := fun _ => None |}
                         Examples.bare_except 0 _ eq_refl))).
  repeat constructor; discriminate.
Defined.

(** *** Reading the pylint report *)

Lemma split_app_sep sep (a r : string) :
  Str.contains (String sep EmptyString) a = false →
  Str.split sep (a +:+ String sep EmptyString +:+ r) = a :: Str.split sep r.
Proof.
  induction a as [|c a IH]; intros Hno.
  - change (EmptyString +:+ String sep EmptyString +:+ r) with (String sep r).
    cbn [Str.split]. by rewrite Ascii.eqb_refl.
  - change (String c a +:+ String sep EmptyString +:+ r)
      with (String c (a +:+ String sep EmptyString +:+ r)).
    cbn [Str.contains] in Hno. apply orb_false_iff in Hno as [Hhead Htail].
    cbn [Str.split].
    destruct (Ascii.eqb_spec c sep) as [->|Hne].
    + simpl in Hhead. destruct (ascii_dec sep sep); [|done].
      by destruct a.
    + by rewrite IH.
Qed.

(** X25. A report line of the form path:line:column:message, whose first
    three parts hold no colon, is turned into an issue only when the line
    contains one of the words error, warning or convention (letter case
    aside); the issue then carries the stripped second part as line number
    and the whole stripped message, inner colons included. Lines without
    these words are dropped. *)
Theorem pylint_parse_line_spec path line_no col message :
  Str.contains ":" path = false →
  Str.contains ":" line_no = false →
  Str.contains ":" col = false →
  pylint_parse_line
    (path +:+ ":" +:+ line_no +:+ ":" +:+ col +:+ ":" +:+ message)
  = if Str.contains
         "error"
         (Str.lower
            (path +:+ ":" +:+ line_no +:+ ":" +:+ col +:+ ":" +:+ message))
       || Str.contains
            "warning"
            (Str.lower
               (path +:+ ":" +:+ line_no +:+ ":" +:+ col +:+ ":" +:+ message))
       || Str.contains
            "convention"
            (Str.lower
               (path +:+ ":" +:+ line_no +:+ ":" +:+ col +:+ ":" +:+ message))
    then Some (Str.strip line_no, Str.strip message)
    else None.
Proof.
  intros Hpath Hline Hcol. unfold pylint_parse_line, pylint_line_reported.
  set (line := path +:+ ":" +:+ line_no +:+ ":" +:+ col +:+ ":" +:+ message).
  assert (Str.contains ":" line = true) as ->.
  { apply StrFacts.contains_spec.
    by exists path, (line_no +:+ ":" +:+ col +:+ ":" +:+ message). }
  rewrite andb_true_l.
  destruct (_ || _ || _); [|done].
  unfold line. rewrite !split_app_sep by done.
  pose proof (split_not_nil ":" message) as Hne.
  pose proof (join_split ":" message) as Hjoin.
  destruct (Str.split ":" message) as [|p3 rest]; [done|].
  by rewrite Hjoin.
Qed.

Lemma pylint_parse_line_spec_witness :
  Str.contains ":" "t.py" = false
  ∧ pylint_parse_line "t.py:1:0: E0001: invalid syntax (syntax-error)"
    = Some ("1", "E0001: invalid syntax (syntax-error)").
Proof.
  assert (Str.contains ":" "t.py" = false) as Hpath
    by (vm_compute; reflexivity).
  split; [exact Hpath|].
  exact (pylint_parse_line_spec
           "t.py" "1" "0" " E0001: invalid syntax (syntax-error)"
           Hpath eq_refl eq_refl).
Defined.

End AnalyzerExtras.


(** ** The bare-except scenario and the analyzers *)

Module BareExceptFacts.
Import Analyzer.






End BareExceptFacts.
